(** * Marketing-intelligence dashboard: the analytics views, the news feed
      grouping and the configuration reconciler

    Shallow embedding of the data logic of
    [frontend/src/components/AdminSettings.tsx] (the analytics views and the
    keyword configuration) and of the news-feed component (time window, sort
    and chronological grouping), with the properties of the specification
    stated over it. *)

From Stdlib Require Import ZArith QArith Qpower Qround Qabs Qreduction.
From Stdlib Require Import Lia Lqa List String Ascii Bool DecimalString.
From Stdlib Require Import Permutation Sorted.
From Stdlib Require Qcanon.
Import ListNotations.

Local Open Scope string_scope.
Local Open Scope list_scope.
Local Open Scope Z_scope.

(** ** JavaScript numbers

    A JavaScript number is an IEEE-754 binary64 value.  The finite ones are
    modelled by the rational they denote, and every arithmetic operation is
    the exact operation followed by [fl], rounding to nearest with 53
    significant bits, ties to even.  The exponent range is not modelled (no
    overflow to Infinity, no subnormal numbers) and [-0] is identified with
    [0]: the magnitudes the views compute with are sums of scores and their
    means.  [NaN] is kept, because [undefined] turns into it. *)

Module Num.

Definition two : Q := 2 # 1.

(** floor of the binary logarithm of the positive rational [a / b] *)
Definition ilog2 (a b : positive) : Z :=
  let k := Z.log2 (Zpos a) - Z.log2 (Zpos b) in
  if Qle_bool (Qpower two k) (Zpos a # b) then k else k - 1.

(** nearest integer, ties to the even one *)
Definition rne (s : Q) : Z :=
  let f := Qfloor s in
  match ((s - inject_Z f) ?= (1 # 2))%Q with
  | Lt => f
  | Gt => f + 1
  | Eq => if Z.even f then f else f + 1
  end.

(** exponent of the last of the 53 significant bits of [a / b] *)
Definition expo (a b : positive) : Z := ilog2 a b - 52.

(** rounding of a positive rational to 53 significant bits *)
Definition fl_pos (a b : positive) : Q :=
  let e := expo a b in
  inject_Z (rne ((Zpos a # b) * Qpower two (- e))) * Qpower two e.

Definition fl (q : Q) : Q :=
  Qred match Qnum q with
       | Z0 => 0
       | Zpos a => fl_pos a (Qden q)
       | Zneg a => - fl_pos a (Qden q)
       end.

(** A number: [NaN] or a finite value. *)
Inductive num : Type :=
| NaN : num
| Fin : Q -> num.

Definition of_Z (z : Z) : num := Fin (inject_Z z).
Definition of_nat (n : nat) : num := of_Z (Z.of_nat n).

(** [x + y], [x - y] and [x / y] on numbers.  A division by zero would be
    an Infinity or a NaN; the views only divide by a count that is at least
    1, and the model returns [NaN] there. *)
Definition add (x y : num) : num :=
  match x, y with
  | Fin a, Fin b => Fin (fl (a + b))
  | _, _ => NaN
  end.

Definition sub (x y : num) : num :=
  match x, y with
  | Fin a, Fin b => Fin (fl (a - b))
  | _, _ => NaN
  end.

Definition div (x y : num) : num :=
  match x, y with
  | Fin a, Fin b => if Qeq_bool b 0 then NaN else Fin (fl (a / b))
  | _, _ => NaN
  end.

(** [x < y], [x > y] and [x >= y]: false as soon as one side is [NaN]. *)
Definition ltb (x y : num) : bool :=
  match x, y with
  | Fin a, Fin b => negb (Qle_bool b a)
  | _, _ => false
  end.

Definition gtb (x y : num) : bool := ltb y x.

Definition geb (x y : num) : bool :=
  match x, y with
  | Fin a, Fin b => Qle_bool b a
  | _, _ => false
  end.

(** nearest integer, the larger one at a tie.  [Number.prototype.toFixed]
    picks its digits this way, on the absolute value: "let n be an integer
    for which n / 10^f - x is as close to zero as possible; if there are two
    such n, pick the larger n". *)
Definition round_half_up (x : Q) : Z := Qfloor (x + (1 # 2)).

(** [x.toFixed(1)], as the decimal value the digits denote: [NaN] prints as
    "NaN", a magnitude of 10^21 or more prints in full ([ToString]), and
    anything else is rounded to one digit after the point. *)
Definition toFixed1 (x : num) : num :=
  match x with
  | NaN => NaN
  | Fin q =>
      if Qle_bool (inject_Z (10 ^ 21)) (Qabs q) then Fin q
      else if Qle_bool 0 q
           then Fin (inject_Z (round_half_up (q * inject_Z 10)) / inject_Z 10)
           else Fin (- (inject_Z (round_half_up (- q * inject_Z 10)) / inject_Z 10))
  end.

(** [parseFloat] of such a decimal: the nearest number. *)
Definition parseFloat (x : num) : num :=
  match x with
  | NaN => NaN
  | Fin q => Fin (fl q)
  end.

End Num.

Import Num.

(** ** Values of the JSON fields

    The analytics records are consumed untyped ([any]).  A numeric field is
    absent ([undefined]), [null] or a number; a string field is absent or a
    string. *)

Inductive jsval : Type :=
| JUndefined : jsval
| JNull : jsval
| JNumber : Q -> jsval.

Definition ToNumber (v : jsval) : num :=
  match v with
  | JUndefined => NaN
  | JNull => Fin 0
  | JNumber q => Fin q
  end.

(** [x || d] on a string field: an absent and an empty string are falsy. *)
Definition or_else (x : option string) (d : string) : string :=
  match x with
  | Some s => if String.eqb s "" then d else s
  | None => d
  end.

(** [x === s] for a string literal [s] *)
Definition strict_eq (x : option string) (s : string) : bool :=
  match x with
  | Some t => String.eqb t s
  | None => false
  end.

(** A date field of a record: absent (or empty), a string [parseISO] cannot
    read, or a string that denotes an instant. *)
Inductive datestr : Type :=
| NoDate : datestr
| BadDate : datestr
| ISO : Z -> datestr.

(** [a || b] on date fields *)
Definition date_or (a b : datestr) : datestr :=
  match a with
  | NoDate => b
  | _ => a
  end.

Record NewsItem : Type := mkNewsItem {
  id : Z;
  title : string;
  sentiment_score : jsval;
  impact_score : jsval;
  urgency : option string;
  risk_type : option string;
  industry_tag : option string;
  created_at : datestr;
  published_at : datestr
}.

(** ** The date-fns functions the two components import

    An instant is a number of milliseconds on the local wall clock of a zone
    with a fixed offset (no daylight-saving transitions); a [Date] is such an
    instant or an Invalid Date ([None]). *)

Module DateFns.

Definition Date : Type := option Z.

Definition msPerDay : Z := 86400000.
Definition msPerHour : Z := 3600000.

(** [parseISO]; a missing argument gives an Invalid Date (date-fns 2). *)
Definition parseISO (d : datestr) : Date :=
  match d with
  | ISO t => Some t
  | _ => None
  end.

Definition getTime (d : Date) : num :=
  match d with
  | Some t => of_Z t
  | None => NaN
  end.

Definition isAfter (d c : Date) : bool :=
  match d, c with
  | Some a, Some b => b <? a
  | _, _ => false
  end.

Definition startOfDay (t : Z) : Z := t - t mod msPerDay.
Definition subHours (t n : Z) : Z := t - n * msPerHour.
Definition subDays (t n : Z) : Z := t - n * msPerDay.

(** Civil calendar of a day number (days since 1970-01-01) and back. *)
Definition civil_from_days (days : Z) : Z * Z * Z :=
  let z := days + 719468 in
  let era := z / 146097 in
  let doe := z mod 146097 in
  let yoe := (doe - doe / 1460 + doe / 36524 - doe / 146096) / 365 in
  let doy := doe - (365 * yoe + yoe / 4 - yoe / 100) in
  let mp := (5 * doy + 2) / 153 in
  let d := doy - (153 * mp + 2) / 5 + 1 in
  let m := if mp <? 10 then mp + 3 else mp - 9 in
  let y := yoe + era * 400 in
  (if m <=? 2 then y + 1 else y, m, d).

Definition days_from_civil (y m d : Z) : Z :=
  let y' := if m <=? 2 then y - 1 else y in
  let era := y' / 400 in
  let yoe := y' mod 400 in
  let doy := (153 * (if 2 <? m then m - 3 else m + 9) + 2) / 5 + d - 1 in
  let doe := yoe * 365 + yoe / 4 - yoe / 100 + doy in
  era * 146097 + doe - 719468.

Definition isLeapYear (y : Z) : bool :=
  ((y mod 4 =? 0) && negb (y mod 100 =? 0)) || (y mod 400 =? 0).

Definition daysInMonth (y m : Z) : Z :=
  if m =? 2 then (if isLeapYear y then 29 else 28)
  else if (m =? 4) || (m =? 6) || (m =? 9) || (m =? 11) then 30
  else 31.

(** [addMonths]: same time of day, same day of the month unless the target
    month is shorter, in which case its last day. *)
Definition addMonths (t n : Z) : Z :=
  let '(y, m, d) := civil_from_days (t / msPerDay) in
  let total := y * 12 + (m - 1) + n in
  let y' := total / 12 in
  let m' := total mod 12 + 1 in
  let d' := Z.min d (daysInMonth y' m') in
  days_from_civil y' m' d' * msPerDay + t mod msPerDay.

Definition subMonths (t n : Z) : Z := addMonths t (- n).
Definition subYears (t n : Z) : Z := addMonths t (- (n * 12)).

Definition isSameDay (d : Date) (t : Z) : bool :=
  match d with
  | Some a => startOfDay a =? startOfDay t
  | None => false
  end.

Definition isToday (now : Z) (d : Date) : bool := isSameDay d now.
Definition isYesterday (now : Z) (d : Date) : bool := isSameDay d (subDays now 1).

Definition monthName (m : Z) : string :=
  match m with
  | 1 => "January" | 2 => "February" | 3 => "March" | 4 => "April"
  | 5 => "May" | 6 => "June" | 7 => "July" | 8 => "August"
  | 9 => "September" | 10 => "October" | 11 => "November"
  | _ => "December"
  end.

Definition pad4 (s : string) : string :=
  match String.length s with
  | 1%nat => String.append "000" s
  | 2%nat => String.append "00" s
  | 3%nat => String.append "0" s
  | _ => s
  end.

(** the [yyyy] token: the year of the era, at least four digits *)
Definition yyyy (y : Z) : string :=
  let era_year := if 0 <? y then y else 1 - y in
  pad4 (NilZero.string_of_uint (N.to_uint (Z.to_N era_year))).

(** [format(date, 'MMMM yyyy')]; it throws a RangeError on an Invalid Date,
    which is [None] here. *)
Definition format_MMMM_yyyy (d : Date) : option string :=
  match d with
  | Some t =>
      let '(y, m, _) := civil_from_days (t / msPerDay) in
      Some (String.append (monthName m) (String.append " " (yyyy y)))
  | None => None
  end.

End DateFns.

(** ** [Array.prototype.sort]

    The sort is stable and its algorithm is left open by the language: with
    a consistent comparator every engine returns the same array, the one
    this insertion sort computes.  With an inconsistent one (a comparator
    that answers [NaN]) the order is implementation-defined and [sort]
    returns one permutation among the admissible ones.  [after x y] says
    that the comparator puts [x] after [y]. *)

Section Sort.
Context {A : Type}.
Variable after : A -> A -> bool.

Fixpoint insert (x : A) (l : list A) : list A :=
  match l with
  | [] => [x]
  | y :: l' => if after x y then y :: insert x l' else x :: l
  end.

Fixpoint sort (l : list A) : list A :=
  match l with
  | [] => []
  | x :: l' => insert x (sort l')
  end.
End Sort.

(** [arr.sort((a, b) => cmp(a, b))]: [a] goes after [b] when the comparator
    is positive; a [NaN] answer counts as zero. *)
Definition js_sort {A : Type} (cmp : A -> A -> num) (l : list A) : list A :=
  sort (fun a b => Num.gtb (cmp a b) (Fin 0)) l.

(** ** The news feed: time window, sort and chronological grouping *)

Module NewsFeed.
Import DateFns.

Inductive TimeRange : Type := Daily | Weekly | Monthly | Quarterly | Yearly.
Inductive SortBy : Type := Latest | HighestImpact.

(** The [switch] over the range; its [default] arm is out of reach of a
    value of the type. *)
Definition startDate (timeRange : TimeRange) (now : Z) : Z :=
  match timeRange with
  | Daily => startOfDay now
  | Weekly => subDays now 7
  | Monthly => subMonths now 1
  | Quarterly => subMonths now 3
  | Yearly => subYears now 1
  end.

(** the four pieces of component state the memo depends on *)
Record Controls : Type := mkControls {
  industryFilter : string;
  minScore : Q;
  timeRange : TimeRange;
  sortBy : SortBy
}.

Definition matches (c : Controls) (now : Z) (item : NewsItem) : bool :=
  let itemDate := parseISO (created_at item) in
  let matchesTime := isAfter itemDate (Some (startDate (timeRange c) now)) in
  let matchesIndustry :=
    String.eqb (industryFilter c) "All" || strict_eq (industry_tag item) (industryFilter c) in
  let matchesScore := Num.geb (ToNumber (impact_score item)) (Fin (minScore c)) in
  matchesTime && matchesIndustry && matchesScore.

Definition byLatest (a b : NewsItem) : num :=
  Num.sub (getTime (parseISO (created_at b))) (getTime (parseISO (created_at a))).

Definition byImpact (a b : NewsItem) : num :=
  Num.sub (ToNumber (impact_score b)) (ToNumber (impact_score a)).

Definition filteredAndSortedNews
    (news : option (list NewsItem)) (c : Controls) (now : Z) : list NewsItem :=
  match news with
  | None => []
  | Some news =>
      let filtered := filter (matches c now) news in
      match sortBy c with
      | Latest => js_sort byLatest filtered
      | HighestImpact => js_sort byImpact filtered
      end
  end.

(** the label of one item; [None] when [format] throws *)
Definition groupLabel (now : Z) (item : NewsItem) : option string :=
  let date := parseISO (created_at item) in
  if isToday now date then Some "Today"
  else if isYesterday now date then Some "Yesterday"
  else if isAfter date (Some (subDays now 7)) then Some "This Week"
  else format_MMMM_yyyy date.

(** The [groups] object: its keys in creation order (none of the labels is
    an integer-like key or a name inherited from [Object.prototype]), each
    with the array the items are pushed to. *)
Definition Groups : Type := list (string * list NewsItem).

Fixpoint push (groupLabel : string) (item : NewsItem) (groups : Groups) : Groups :=
  match groups with
  | [] => [(groupLabel, [item])]
  | (k, items) :: rest =>
      if String.eqb k groupLabel then (k, items ++ [item]) :: rest
      else (k, items) :: push groupLabel item rest
  end.

Definition groupStep (now : Z) (groups : option Groups) (item : NewsItem) : option Groups :=
  match groups with
  | None => None
  | Some g =>
      match groupLabel now item with
      | Some l => Some (push l item g)
      | None => None
      end
  end.

Definition groupedNews (now : Z) (filteredAndSortedNews : list NewsItem) : option Groups :=
  fold_left (groupStep now) filteredAndSortedNews (Some []).

(** the items of the groups, in the order the feed renders them *)
Definition itemsOf (groups : Groups) : list NewsItem := List.concat (map snd groups).

(** *** The filter controls

    The setters of the component state, as the select box, the slider and
    the Reset Filters button call them. *)

Definition setIndustryFilter (s : string) (c : Controls) : Controls :=
  mkControls s (minScore c) (timeRange c) (sortBy c).

Definition setMinScore (m : Q) (c : Controls) : Controls :=
  mkControls (industryFilter c) m (timeRange c) (sortBy c).

Definition setTimeRange (r : TimeRange) (c : Controls) : Controls :=
  mkControls (industryFilter c) (minScore c) r (sortBy c).

(** [setIndustryFilter('All'); setMinScore(0)] *)
Definition resetFilters (c : Controls) : Controls :=
  setMinScore 0 (setIndustryFilter "All" c).

(** *** One card of the feed *)

(** the text of the sentiment badge *)
Definition sentimentBadge (item : NewsItem) : string :=
  if Num.gtb (ToNumber (sentiment_score item)) (of_Z 7) then "Bullish"
  else if Num.ltb (ToNumber (sentiment_score item)) (of_Z 4) then "Bearish"
  else "Neutral".

(** [item.risk_type !== 'None']: whether the risk badge is rendered *)
Definition showsRiskBadge (item : NewsItem) : bool :=
  negb (strict_eq (risk_type item) "None").

(** [item.impact_score.toFixed(1)], as the decimal the digits denote; the
    method call on [undefined] or [null] is a TypeError ([None]). *)
Definition impactText (item : NewsItem) : option num :=
  match impact_score item with
  | JNumber q => Some (Num.toFixed1 (Fin q))
  | _ => None
  end.

(** [filteredAndSortedNews.length === 0]: whether the "No signals" panel is
    rendered *)
Definition showsEmptyState (filteredAndSortedNews : list NewsItem) : bool :=
  (List.length filteredAndSortedNews =? 0)%nat.

End NewsFeed.

(** ** The admin page: analytics views and keyword configuration *)

Module Mix.
Record t : Type := mk { name : string; value : nat; color : string }.
End Mix.

Module Agg.
Record t : Type := mk { name : string; score : num; count : nat }.
End Agg.

Module Rank.
Record t : Type := mk { name : string; score : num }.
End Rank.

Module Risk.
Record t : Type := mk { name : string; count : nat }.
End Risk.

Module Point.
Record t : Type := mk { impact : jsval; urgency : Z; title : string; id : Z }.
End Point.

(** Own properties of a plain object used as a dictionary, in creation
    order.  Reading [obj[k]] also finds what [Object.prototype] provides, and
    [Object.values] lists array-index keys first, in ascending order. *)
Module Obj.

Definition inherited : list string :=
  [ "constructor"; "__proto__"; "hasOwnProperty"; "isPrototypeOf";
    "propertyIsEnumerable"; "toLocaleString"; "toString"; "valueOf";
    "__defineGetter__"; "__defineSetter__"; "__lookupGetter__"; "__lookupSetter__" ].

Definition is_inherited (k : string) : bool := existsb (String.eqb k) inherited.

Fixpoint digits_value (s : string) (acc : N) : option N :=
  match s with
  | EmptyString => Some acc
  | String c s' =>
      let n := N_of_ascii c in
      if ((48 <=? n) && (n <=? 57))%N then digits_value s' (10 * acc + (n - 48))%N
      else None
  end.

(** a canonical numeric string below 2^32 - 1 *)
Definition array_index (k : string) : option N :=
  match k with
  | EmptyString => None
  | String c rest =>
      if (N_of_ascii c =? 48)%N
      then match rest with EmptyString => Some 0%N | _ => None end
      else match digits_value k 0 with
           | Some n => if (n <? 4294967295)%N then Some n else None
           | None => None
           end
  end.

Definition index_of {V : Type} (kv : string * V) : N :=
  match array_index (fst kv) with
  | Some n => n
  | None => 0%N
  end.

Definition is_index {V : Type} (kv : string * V) : bool :=
  match array_index (fst kv) with
  | Some _ => true
  | None => false
  end.

Definition values {V : Type} (o : list (string * V)) : list V :=
  map snd (sort (fun a b => (index_of b <? index_of a)%N) (filter is_index o)
           ++ filter (fun kv => negb (is_index kv)) o).

End Obj.

Module AdminSettings.
Import DateFns.

Inductive TimeRange : Type := Daily | Weekly | Monthly | Yearly.

Definition startDate (timeRange : TimeRange) (now : Z) : Z :=
  match timeRange with
  | Daily => subHours now 24
  | Weekly => subDays now 7
  | Monthly => subMonths now 1
  | Yearly => subYears now 1
  end.

(** *** filteredSentimentData *)

Definition inWindow (timeRange : TimeRange) (now : Z) (item : NewsItem) : bool :=
  isAfter (parseISO (date_or (published_at item) (created_at item)))
          (Some (startDate timeRange now)).

Record Counts : Type := mkCounts { Positive : nat; Neutral : nat; Risk : nat }.

Definition tally (counts : Counts) (item : NewsItem) : Counts :=
  if Num.gtb (ToNumber (sentiment_score item)) (of_Z 7)
  then mkCounts (S (Positive counts)) (Neutral counts) (Risk counts)
  else if Num.ltb (ToNumber (sentiment_score item)) (of_Z 4)
  then mkCounts (Positive counts) (Neutral counts) (S (Risk counts))
  else mkCounts (Positive counts) (S (Neutral counts)) (Risk counts).

Definition filteredSentimentData
    (timeRange : TimeRange) (now : Z) (rawNews : list NewsItem) : list Mix.t :=
  let filtered := filter (inWindow timeRange now) rawNews in
  let counts := fold_left tally filtered (mkCounts 0 0 0) in
  filter (fun c => (0 <? Mix.value c)%nat)
    [ Mix.mk "Positive" (Positive counts) "#10b981";
      Mix.mk "Neutral" (Neutral counts) "#f59e0b";
      Mix.mk "Risk" (Risk counts) "#ef4444" ].

(** *** industryImpactData *)

Definition Aggregation : Type := list (string * Agg.t).

(** [aggregation[tag].score += x; aggregation[tag].count += 1], after the
    entry was created when [aggregation[tag]] was missing *)
Fixpoint accumulate (tag : string) (x : num) (aggregation : Aggregation) : Aggregation :=
  match aggregation with
  | [] => [(tag, Agg.mk tag (Num.add (of_Z 0) x) 1)]
  | (k, c) :: rest =>
      if String.eqb k tag
      then (k, Agg.mk (Agg.name c) (Num.add (Agg.score c) x) (S (Agg.count c))) :: rest
      else (k, c) :: accumulate tag x rest
  end.

(** One round of the [forEach].  For a tag that names a property inherited
    from [Object.prototype], [aggregation[tag]] is that inherited value: no
    entry is created and the two updates land on the inherited value. *)
Definition aggregate (aggregation : Aggregation) (item : NewsItem) : Aggregation :=
  let tag := or_else (industry_tag item) "General" in
  if Obj.is_inherited tag then aggregation
  else accumulate tag (ToNumber (impact_score item)) aggregation.

Definition mean (c : Agg.t) : Rank.t :=
  Rank.mk (Agg.name c)
          (Num.parseFloat (Num.toFixed1 (Num.div (Agg.score c) (of_nat (Agg.count c))))).

Definition byScore (a b : Rank.t) : num := Num.sub (Rank.score b) (Rank.score a).

Definition industryImpactData (rawNews : list NewsItem) : list Rank.t :=
  let aggregation := fold_left aggregate rawNews [] in
  js_sort byScore (map mean (Obj.values aggregation)).

(** *** riskDistributionData *)

Definition risks : list string :=
  [ "Policy"; "Competition"; "Supply Chain"; "Financial"; "Other"; "None" ].

(** [counts.find(c => c.name === r).count++]; [None] when [find] finds
    nothing *)
Fixpoint increment (r : string) (counts : list Risk.t) : option (list Risk.t) :=
  match counts with
  | [] => None
  | c :: rest =>
      if String.eqb (Risk.name c) r
      then Some (Risk.mk (Risk.name c) (S (Risk.count c)) :: rest)
      else option_map (cons c) (increment r rest)
  end.

(** One round of the [forEach]; the second [find] is dereferenced without a
    check, so a miss there is a TypeError ([None]). *)
Definition countRisk (counts : option (list Risk.t)) (item : NewsItem)
  : option (list Risk.t) :=
  match counts with
  | None => None
  | Some counts =>
      let r := or_else (risk_type item) "None" in
      match increment r counts with
      | Some counts' => Some counts'
      | None => increment "Other" counts
      end
  end.

Definition riskDistributionData (rawNews : list NewsItem) : option (list Risk.t) :=
  let counts := map (fun r => Risk.mk r 0) risks in
  option_map (filter (fun c => (0 <? Risk.count c)%nat))
             (fold_left countRisk rawNews (Some counts)).

(** *** scatterData *)

Definition urgencyWeight (item : NewsItem) : Z :=
  if strict_eq (urgency item) "High" then 3
  else if strict_eq (urgency item) "Medium" then 2
  else 1.

Definition scatterData (rawNews : list NewsItem) : list Point.t :=
  map (fun item => Point.mk (impact_score item) (urgencyWeight item) (title item) (id item))
      rawNews.

(** *** The keyword configuration *)

Record Config : Type := mkConfig {
  search_keywords : list string;
  scraping_interval_minutes : Z
}.

(** the component state the configuration code reads and writes *)
Record State : Type := mkState {
  keywords : list string;
  interval : Z;
  newKeyword : string;
  selectedIndustry : string
}.

(** [useState] initial values *)
Definition initialState : State := mkState [] 60 "" "Electric Vehicle".

(** The effect that follows [config]: React runs it after the first render
    and after each render in which [config] changed. *)
Definition syncConfig (config : option Config) (st : State) : State :=
  match config with
  | Some config =>
      if (List.length (keywords st) =? 0)%nat
      then mkState (search_keywords config)
                   (scraping_interval_minutes config)
                   (newKeyword st)
                   (match search_keywords config with
                    | k :: _ => k
                    | [] => selectedIndustry st
                    end)
      else st
  | None => st
  end.

(** the payload [updateConfig] posts; an array is truthy even when empty,
    an interval of [0] is falsy *)
Definition updateConfig (st : State) (newKeywords : option (list string))
    (newInterval : option Z) : Config :=
  mkConfig
    (match newKeywords with Some k => k | None => keywords st end)
    (match newInterval with
     | Some i => if i =? 0 then interval st else i
     | None => interval st
     end).

Definition includes (l : list string) (s : string) : bool := existsb (String.eqb s) l.

(** the input box: [setNewKeyword(e.target.value)] *)
Definition typeKeyword (s : string) (st : State) : State :=
  mkState (keywords st) (interval st) s (selectedIndustry st).

(** new state and the request sent to the server, if any *)
Definition addKeyword (st : State) : State * option Config :=
  if negb (String.eqb (newKeyword st) "") && negb (includes (keywords st) (newKeyword st))
  then let updated := keywords st ++ [newKeyword st] in
       (mkState updated (interval st) "" (selectedIndustry st),
        Some (updateConfig st (Some updated) None))
  else (st, None).

(** the interval slider: [setInterval(parseInt(e.target.value))] *)
Definition changeInterval (i : Z) (st : State) : State :=
  mkState (keywords st) i (newKeyword st) (selectedIndustry st).

Definition removeKeyword (kw : string) (st : State) : State * option Config :=
  let updated := filter (fun k => negb (String.eqb k kw)) (keywords st) in
  (mkState updated (interval st) (newKeyword st) (selectedIndustry st),
   Some (updateConfig st (Some updated) None)).

(** *** What the charts show of a point *)

(** the urgency line of the tooltip, and the colour of the dot *)
Definition urgencyText (urgency : Z) : string :=
  if urgency =? 3 then "HIGH" else if urgency =? 2 then "MED" else "LOW".

Definition pointFill (urgency : Z) : string :=
  if urgency =? 3 then "#ef4444" else if urgency =? 2 then "#f59e0b" else "#10b981".

(** *** The configuration as a state machine

    What the user and the network do to the configuration, and the handler
    of each event with the request it posts, if any. *)

(** the Update Settings button: [updateConfig()] *)
Definition saveSettings (st : State) : State * option Config :=
  (st, Some (updateConfig st None None)).

(** The page: [config] as [useQuery] returns it ([None] while nothing has
    been fetched) and the local state. *)
Record Page : Type := mkPage {
  config : option Config;
  local : State
}.

(** The first render: [config] is what the query cache holds, the local
    state is fresh, and the effect runs once. *)
Definition mount (cached : option Config) : Page :=
  mkPage cached (syncConfig cached initialState).

(** Structural equality of two answers: the same keywords in the same order
    and the same interval. *)
Fixpoint sameKeywords (a b : list string) : bool :=
  match a, b with
  | [], [] => true
  | x :: a', y :: b' => String.eqb x y && sameKeywords a' b'
  | _, _ => false
  end.

Definition sameConfig (a b : Config) : bool :=
  sameKeywords (search_keywords a) (search_keywords b)
  && (scraping_interval_minutes a =? scraping_interval_minutes b).

(** [useQuery] keeps the object it holds when an answer is structurally equal
    to it (structural sharing, the default of the query library; the call
    passes a key and a fetcher and no option), so [config] is a new object
    exactly when the answer differs from the one held. *)
Definition unchanged (held : option Config) (answer : Config) : bool :=
  match held with
  | Some c => sameConfig c answer
  | None => false
  end.

(** A successful fetch of the configuration.  The effect has [[config]] as
    its dependencies: it runs after the render in which [config] is a new
    object, with the local state of that render, and not otherwise. *)
Definition receive (answer : Config) (p : Page) : Page :=
  if unchanged (config p) answer then p
  else mkPage (Some answer) (syncConfig (Some answer) (local p)).

Inductive Event : Type :=
| Fetched (answer : Config)
| Typed (s : string)
| AddClicked
| RemoveClicked (kw : string)
| IntervalMoved (i : Z)
| SaveClicked.

(** a handler of the local state, run on the page: [config] is the query's
    and no handler writes it *)
Definition onLocal (h : State -> State * option Config) (p : Page) : Page * option Config :=
  (mkPage (config p) (fst (h (local p))), snd (h (local p))).

Definition handle (p : Page) (e : Event) : Page * option Config :=
  match e with
  | Fetched answer => (receive answer p, None)
  | Typed s => onLocal (fun st => (typeKeyword s st, None)) p
  | AddClicked => onLocal addKeyword p
  | RemoveClicked kw => onLocal (removeKeyword kw) p
  | IntervalMoved i => onLocal (fun st => (changeInterval i st, None)) p
  | SaveClicked => onLocal saveSettings p
  end.

Definition run (events : list Event) (p : Page) : Page :=
  fold_left (fun q e => fst (handle q e)) events p.

(** the configuration the local state stands for *)
Definition localConfig (st : State) : Config := mkConfig (keywords st) (interval st).

End AdminSettings.

(** ** Vocabulary of the statements *)

(** A sort key is defined when it is not [NaN]; [value] is the rational it
    denotes, and [descending k] orders two elements by their keys. *)
Definition defined (x : num) : Prop := x <> NaN.

Definition value (x : num) : Q :=
  match x with
  | Fin q => q
  | NaN => 0%Q
  end.

Definition descending {A : Type} (k : A -> num) (x y : A) : Prop :=
  (value (k y) <= value (k x))%Q.

(** the comparator [(a, b) => k(b) - k(a)] as the "goes after" test of
    [sort] *)
Definition after_desc {A : Type} (k : A -> num) (a b : A) : bool :=
  Num.gtb (Num.sub (k b) (k a)) (Fin 0).

(** *** Sentiment mix *)

Definition hasSentiment (item : NewsItem) : bool :=
  match sentiment_score item with
  | JNumber _ => true
  | _ => false
  end.

Definition isPositive (item : NewsItem) : bool :=
  Num.gtb (ToNumber (sentiment_score item)) (of_Z 7).

Definition isRisk (item : NewsItem) : bool :=
  Num.ltb (ToNumber (sentiment_score item)) (of_Z 4).

Definition isNeutral (item : NewsItem) : bool :=
  negb (isPositive item) && negb (isRisk item).

Definition mixTotal (view : list Mix.t) : nat := list_sum (map Mix.value view).

Definition howMany {A : Type} (p : A -> bool) (l : list A) : nat :=
  List.length (filter p l).

(** *** Risk distribution *)

(** the category an item is counted in *)
Definition category (item : NewsItem) : string :=
  let r := or_else (risk_type item) "None" in
  if existsb (String.eqb r) AdminSettings.risks then r else "Other".

Definition riskTotal (view : list Risk.t) : nat := list_sum (map Risk.count view).

Definition riskTable (f : string -> nat) : list Risk.t :=
  map (fun r => Risk.mk r (f r)) AdminSettings.risks.

(** *** Industry ranking *)

Definition hasImpact (item : NewsItem) : bool :=
  match impact_score item with
  | JNumber _ => true
  | _ => false
  end.

(** the impact score is a number of the 0-10 range *)
Definition impactInRange (item : NewsItem) : Prop :=
  exists q, impact_score item = JNumber q /\ (0 <= q <= inject_Z 10)%Q.

(** the tag a record is grouped under, and the records of a tag *)
Definition tagOf (item : NewsItem) : string := or_else (industry_tag item) "General".

Definition members (tag : string) (rawNews : list NewsItem) : list NewsItem :=
  filter (fun item => String.eqb (tagOf item) tag) rawNews.

(** the running sum of the impact scores of some records, from 0 *)
Definition impactSum (l : list NewsItem) : num :=
  fold_left (fun s item => Num.add s (ToNumber (impact_score item))) l (of_Z 0).

(** sum over count, printed with one digit and read back *)
Definition meanOf (l : list NewsItem) : num :=
  Num.parseFloat (Num.toFixed1 (Num.div (impactSum l) (of_nat (List.length l)))).

(** first own property under a key *)
Fixpoint lookup {V : Type} (k : string) (o : list (string * V)) : option V :=
  match o with
  | [] => None
  | (k', v) :: rest => if String.eqb k' k then Some v else lookup k rest
  end.

(** a score in the 0-10 range *)
Definition scoreInRange (x : num) : Prop :=
  exists q, x = Fin q /\ (0 <= q <= inject_Z 10)%Q.

(** *** Chronological groups *)

(** the sort key of each mode: the comparators are [k(b) - k(a)] *)
Definition latestKey (item : NewsItem) : num :=
  DateFns.getTime (DateFns.parseISO (created_at item)).

Definition impactKey (item : NewsItem) : num := ToNumber (impact_score item).

Definition sortKey (s : NewsFeed.SortBy) : NewsItem -> num :=
  match s with
  | NewsFeed.Latest => latestKey
  | NewsFeed.HighestImpact => impactKey
  end.

(** the label of a record whose date is valid *)
Definition labelOf (now : Z) (item : NewsItem) : string :=
  match NewsFeed.groupLabel now item with
  | Some l => l
  | None => ""
  end.

(** the grouping loop for a labelling that cannot fail *)
Definition groupsOf (lab : NewsItem -> string) (l : list NewsItem) : NewsFeed.Groups :=
  fold_left (fun g item => NewsFeed.push (lab item) item g) l [].

Definition hasDate (item : NewsItem) : Prop := exists t, created_at item = ISO t.

(** *** Urgency *)

Definition enumUrgency (u : option string) : Prop :=
  u = Some "High" \/ u = Some "Medium" \/ u = Some "Low".

(** *** Sample records *)

Definition record (n : Z) (sentiment impact : jsval) (urg risk tag : option string)
    (created published : datestr) : NewsItem :=
  mkNewsItem n "signal" sentiment impact urg risk tag created published.

(** 2024-03-15 12:00 on the local clock *)
Definition noon : Z := 1710504000000.

(** one record of a millisecond ago, without a sentiment score *)
Definition unscoredNews : list NewsItem :=
  [record 1 JUndefined JUndefined None None None NoDate (ISO (noon - 1))].

(** one record whose urgency is outside the enumeration *)
Definition criticalNews : list NewsItem :=
  [record 7 (JNumber 5) (JNumber 9) (Some "Critical") None (Some "EV") (ISO noon) NoDate].

(** the three records of the risk scenario *)
Definition riskScenario : list NewsItem :=
  [ record 1 JUndefined JUndefined None (Some "Cyber") None NoDate NoDate;
    record 2 JUndefined JUndefined None (Some "Policy") None NoDate NoDate;
    record 3 JUndefined JUndefined None None None NoDate NoDate ].

(** three records of a minute ago with sentiment scores 8, 3 and 5 *)
Definition sentimentScenario : list NewsItem :=
  [ record 1 (JNumber 8) JUndefined None None None NoDate (ISO (noon - 60000));
    record 2 (JNumber 3) JUndefined None None None NoDate (ISO (noon - 60000));
    record 3 (JNumber 5) JUndefined None None None NoDate (ISO (noon - 60000)) ].

(** two records tagged EV, with impact scores 8 and 6 *)
Definition evScenario : list NewsItem :=
  [ record 1 (JNumber 5) (JNumber 8) (Some "Low") None (Some "EV") (ISO noon) NoDate;
    record 2 (JNumber 5) (JNumber 6) (Some "Low") None (Some "EV") (ISO noon) NoDate ].

(** one record without an impact score *)
Definition unratedNews : list NewsItem :=
  [ record 1 (JNumber 5) JUndefined (Some "Low") None (Some "Steel") (ISO noon) NoDate ].

(** a record with impact score 8 and one without, under the same tag *)
Definition partlyRatedNews : list NewsItem :=
  [ record 1 (JNumber 5) (JNumber 8) (Some "Low") None (Some "EV") (ISO noon) NoDate;
    record 2 (JNumber 5) JUndefined (Some "Low") None (Some "EV") (ISO noon) NoDate ].

(** four recent records: the best-rated one is three days old, two are of
    today, and one of today has no impact score *)
Definition feedSample : list NewsItem :=
  [ record 1 (JNumber 5) (JNumber 4) (Some "Low") None (Some "EV") (ISO (noon - 1000)) NoDate;
    record 2 (JNumber 5) (JNumber 9) (Some "High") None (Some "EV")
           (ISO (noon - 3 * DateFns.msPerDay)) NoDate;
    record 3 (JNumber 5) (JNumber 7) (Some "Low") None (Some "EV") (ISO (noon - 2000)) NoDate;
    record 4 (JNumber 5) JUndefined (Some "Low") None (Some "EV") (ISO (noon - 3000)) NoDate ].

Definition byImpactControls : NewsFeed.Controls :=
  NewsFeed.mkControls "All" 0 NewsFeed.Monthly NewsFeed.HighestImpact.

(** a keyword list that already holds "Solar", with "Solar" typed in *)
Definition solarState : AdminSettings.State :=
  AdminSettings.mkState ["Solar"] 60 "Solar" "Electric Vehicle".

(** *** Further vocabulary *)

(** the distinct elements of a list of labels, in the order of their first
    occurrence *)
Definition firstSeen (labels : list string) : list string :=
  fold_left (fun acc l => if existsb (String.eqb l) acc then acc else acc ++ [l]) labels [].

(** the records whose sort key is the number [v] *)
Definition keyIs (k : NewsItem -> num) (v : Q) (item : NewsItem) : bool :=
  match k item with
  | Fin q => Qeq_bool q v
  | NaN => false
  end.

(** the three labels of the last seven days *)
Definition recentLabels : list string := [ "Today"; "Yesterday"; "This Week" ].

(** a batch of records of several days, two tags and mixed scores *)
Definition weekSample : list NewsItem :=
  [ record 1 (JNumber 8) (JNumber 4) (Some "Low") (Some "Policy") (Some "EV")
           (ISO (noon - 1000)) NoDate;
    record 2 (JNumber 3) (JNumber 9) (Some "High") None (Some "Steel")
           (ISO (noon - 3 * DateFns.msPerDay)) NoDate;
    record 3 (JNumber 5) (JNumber 4) (Some "Medium") (Some "None") (Some "EV")
           (ISO (noon - 2000)) NoDate;
    record 4 (JNumber 5) JNull (Some "Low") None (Some "EV")
           (ISO (noon - DateFns.msPerDay)) NoDate;
    record 5 (JNumber 9) (JNumber 7) (Some "Low") (Some "Cyber") (Some "Steel")
           (ISO (noon - 40 * DateFns.msPerDay)) NoDate ].

Definition latestControls : NewsFeed.Controls :=
  NewsFeed.mkControls "All" 0 NewsFeed.Yearly NewsFeed.Latest.

(** the ranges of each page, from the narrowest to the widest *)
Definition feedRangeRank (r : NewsFeed.TimeRange) : nat :=
  match r with
  | NewsFeed.Daily => 0
  | NewsFeed.Weekly => 1
  | NewsFeed.Monthly => 2
  | NewsFeed.Quarterly => 3
  | NewsFeed.Yearly => 4
  end.

Definition adminRangeRank (r : AdminSettings.TimeRange) : nat :=
  match r with
  | AdminSettings.Daily => 0
  | AdminSettings.Weekly => 1
  | AdminSettings.Monthly => 2
  | AdminSettings.Yearly => 3
  end.

(** Months counted from January of year 0: the day number of the first day
    of month [k] and the number of its days; the month and the day of the
    month an instant falls in. *)
Definition monthStart (k : Z) : Z := DateFns.days_from_civil (k / 12) (k mod 12 + 1) 1.

Definition monthLength (k : Z) : Z := DateFns.daysInMonth (k / 12) (k mod 12 + 1).

Definition monthIndex (t : Z) : Z :=
  let '(y, m, _) := DateFns.civil_from_days (t / DateFns.msPerDay) in y * 12 + (m - 1).

Definition dayOfMonth (t : Z) : Z :=
  let '(_, _, d) := DateFns.civil_from_days (t / DateFns.msPerDay) in d.

(** * Properties *)

(** ** Rounding *)

Module NumFacts.
Import Num.
Local Open Scope Q_scope.

Lemma pow2_pos z : 0 < two ^ z.
Proof. apply Qpower_0_lt. reflexivity. Qed.

Lemma pow2_plus a b : two ^ (a + b) == two ^ a * two ^ b.
Proof. apply Qpower_plus. discriminate. Qed.

Lemma pow2_cancel z : two ^ z * two ^ (- z) == 1.
Proof. rewrite <- pow2_plus. rewrite Z.add_opp_diag_r. reflexivity. Qed.

Lemma pow2_le a b : (a <= b)%Z -> two ^ a <= two ^ b.
Proof. intros. apply Qpower_le_compat_l; [assumption | discriminate]. Qed.

Lemma pow2_lt a b : (a < b)%Z -> two ^ a < two ^ b.
Proof. intros. apply Qpower_lt_compat_l; [assumption | reflexivity]. Qed.

Lemma pow2_Z n : (0 <= n)%Z -> two ^ n == inject_Z (2 ^ n).
Proof. intros. rewrite Zpower_Qpower by assumption. reflexivity. Qed.

Lemma pow2_succ z : two ^ (z + 1) == 2 * two ^ z.
Proof. rewrite pow2_plus. change (two ^ 1) with two. unfold two. ring. Qed.

(** [ilog2] brackets the rational between consecutive powers of two. *)
Lemma log2_bracket (a : positive) :
  inject_Z (2 ^ Z.log2 (Zpos a)) <= inject_Z (Zpos a)
  /\ inject_Z (Zpos a) < inject_Z (2 ^ (Z.log2 (Zpos a) + 1)).
Proof.
  destruct (Z.log2_spec (Zpos a)) as [H1 H2]; [lia|].
  split.
  - rewrite <- Zle_Qle. exact H1.
  - rewrite <- Zlt_Qlt. rewrite <- Z.add_1_r in H2. exact H2.
Qed.

Lemma ilog2_spec a b :
  two ^ (ilog2 a b) <= Zpos a # b /\ Zpos a # b < two ^ (ilog2 a b + 1).
Proof.
  unfold ilog2.
  set (la := Z.log2 (Zpos a)). set (lb := Z.log2 (Zpos b)).
  assert (Hla : (0 <= la)%Z) by apply Z.log2_nonneg.
  assert (Hlb : (0 <= lb)%Z) by apply Z.log2_nonneg.
  destruct (log2_bracket a) as [A1 A2]. destruct (log2_bracket b) as [B1 B2].
  fold la in A1, A2. fold lb in B1, B2.
  rewrite <- pow2_Z in A1, A2, B1, B2 by lia.
  assert (Hq : Zpos a # b == inject_Z (Zpos a) / inject_Z (Zpos b)) by apply Qmake_Qdiv.
  assert (Hb : 0 < inject_Z (Zpos b)) by (rewrite <- (Zlt_Qlt 0); lia).
  assert (Ha : 0 < inject_Z (Zpos a)) by (rewrite <- (Zlt_Qlt 0); lia).
  assert (Hlo : two ^ (la - lb - 1) < Zpos a # b).
  { rewrite Hq. apply Qlt_shift_div_l; [assumption|].
    apply Qlt_le_trans with (two ^ (la - lb - 1) * two ^ (lb + 1)).
    - apply Qmult_lt_l; [apply pow2_pos | assumption].
    - rewrite <- pow2_plus. replace (la - lb - 1 + (lb + 1))%Z with la by lia. assumption. }
  assert (Hhi : Zpos a # b < two ^ (la - lb + 1)).
  { rewrite Hq. apply Qlt_shift_div_r; [assumption|].
    apply Qlt_le_trans with (two ^ (la + 1)); [assumption|].
    replace (la + 1)%Z with (la - lb + 1 + lb)%Z by lia. rewrite pow2_plus.
    apply Qmult_le_l; [apply pow2_pos | assumption]. }
  destruct (Qle_bool (two ^ (la - lb)) (Zpos a # b)) eqn:E.
  - apply Qle_bool_iff in E. split; assumption.
  - split.
    + apply Qlt_le_weak. assumption.
    + replace (la - lb - 1 + 1)%Z with (la - lb)%Z by lia.
      apply Qnot_le_lt. intro C. apply Qle_bool_iff in C. congruence.
Qed.

Lemma rne_comp s t : s == t -> rne s = rne t.
Proof.
  intro H. unfold rne. rewrite (Qfloor_comp _ _ H).
  assert (E : (s - inject_Z (Qfloor t) ?= 1 # 2) = (t - inject_Z (Qfloor t) ?= 1 # 2)).
  { apply Qcompare_comp; [rewrite H|]; reflexivity. }
  rewrite E. reflexivity.
Qed.

Lemma rne_Z z : rne (inject_Z z) = z.
Proof.
  unfold rne. rewrite Qfloor_Z.
  assert (E : (inject_Z z - inject_Z z ?= 1 # 2) = Lt).
  { rewrite <- Qlt_alt. lra. }
  rewrite E. reflexivity.
Qed.

Lemma rne_floor s : (Qfloor s <= rne s <= Qfloor s + 1)%Z.
Proof.
  unfold rne. destruct (s - inject_Z (Qfloor s) ?= 1 # 2); [destruct (Z.even _)| |]; lia.
Qed.

Lemma rne_mono s t : s <= t -> (rne s <= rne t)%Z.
Proof.
  intro H. pose proof (Qfloor_resp_le _ _ H) as Hf.
  pose proof (rne_floor s) as Hs. pose proof (rne_floor t) as Ht.
  destruct (Z.eq_dec (Qfloor s) (Qfloor t)) as [E|NE]; [|lia].
  unfold rne in *. rewrite E in *.
  set (f := Qfloor t) in *.
  destruct (s - inject_Z f ?= 1 # 2) eqn:Cs; destruct (t - inject_Z f ?= 1 # 2) eqn:Ct;
    try lia; try (destruct (Z.even f); lia);
    try rewrite <- Qeq_alt in *; try rewrite <- Qlt_alt in *; try rewrite <- Qgt_alt in *;
    exfalso; lra.
Qed.

Lemma scaled_range a b :
  two ^ 52 <= (Zpos a # b) * two ^ (- expo a b)
  /\ (Zpos a # b) * two ^ (- expo a b) < two ^ 53.
Proof.
  unfold expo. destruct (ilog2_spec a b) as [H1 H2].
  set (l := ilog2 a b) in *.
  pose proof (pow2_pos (- (l - 52))) as Hp.
  split.
  - apply Qle_trans with (two ^ l * two ^ (- (l - 52))).
    + rewrite <- pow2_plus. replace (l + - (l - 52))%Z with 52%Z by lia. apply Qle_refl.
    + apply Qmult_le_compat_r; [assumption | apply Qlt_le_weak; assumption].
  - apply Qlt_le_trans with (two ^ (l + 1) * two ^ (- (l - 52))).
    + apply Qmult_lt_compat_r; assumption.
    + rewrite <- pow2_plus. replace (l + 1 + - (l - 52))%Z with 53%Z by lia. apply Qle_refl.
Qed.

Lemma rne_scaled_range a b :
  (2 ^ 52 <= rne ((Zpos a # b) * two ^ (- expo a b)) <= 2 ^ 53)%Z.
Proof.
  destruct (scaled_range a b) as [H1 H2].
  rewrite (pow2_Z 52) in H1 by lia. rewrite (pow2_Z 53) in H2 by lia.
  split.
  - rewrite <- (rne_Z (2 ^ 52)). apply rne_mono. assumption.
  - rewrite <- (rne_Z (2 ^ 53)). apply rne_mono. apply Qlt_le_weak. assumption.
Qed.

Lemma fl_pos_eq a b :
  fl_pos a b = inject_Z (rne ((Zpos a # b) * two ^ (- expo a b))) * two ^ expo a b.
Proof. reflexivity. Qed.

Lemma fl_pos_bounds a b :
  two ^ (expo a b + 52) <= fl_pos a b /\ fl_pos a b <= two ^ (expo a b + 53).
Proof.
  rewrite fl_pos_eq. destruct (rne_scaled_range a b) as [H1 H2].
  rewrite Zle_Qle in H1, H2.
  rewrite <- (pow2_Z 52) in H1 by lia. rewrite <- (pow2_Z 53) in H2 by lia.
  pose proof (pow2_pos (expo a b)) as Hp.
  rewrite !pow2_plus, !(Qmult_comm (two ^ expo a b)).
  split; apply Qmult_le_compat_r; try assumption; apply Qlt_le_weak; assumption.
Qed.

Lemma fl_pos_gt0 a b : 0 < fl_pos a b.
Proof.
  eapply Qlt_le_trans; [apply pow2_pos | apply (proj1 (fl_pos_bounds a b))].
Qed.

Lemma expo_mono a b c d : Zpos a # b <= Zpos c # d -> (expo a b <= expo c d)%Z.
Proof.
  intro H. unfold expo.
  destruct (ilog2_spec a b) as [A1 _]. destruct (ilog2_spec c d) as [_ C2].
  assert (L : two ^ ilog2 a b < two ^ (ilog2 c d + 1)) by
    (eapply Qle_lt_trans; [eassumption|]; eapply Qle_lt_trans; eassumption).
  apply Qpower_lt_compat_l_inv in L; [lia | reflexivity].
Qed.

Lemma fl_pos_mono a b c d : Zpos a # b <= Zpos c # d -> fl_pos a b <= fl_pos c d.
Proof.
  intro H. pose proof (expo_mono _ _ _ _ H) as He.
  destruct (Z.eq_dec (expo a b) (expo c d)) as [E|NE].
  - rewrite !fl_pos_eq, E.
    apply Qmult_le_compat_r; [|apply Qlt_le_weak, pow2_pos].
    rewrite <- Zle_Qle. apply rne_mono.
    apply Qmult_le_compat_r; [assumption | apply Qlt_le_weak, pow2_pos].
  - apply Qle_trans with (two ^ (expo a b + 53)); [apply fl_pos_bounds|].
    apply Qle_trans with (two ^ (expo c d + 52)); [|apply fl_pos_bounds].
    apply pow2_le. lia.
Qed.

Lemma fl_eq q :
  fl q == match Qnum q with
          | Z0 => 0
          | Zpos a => fl_pos a (Qden q)
          | Zneg a => - fl_pos a (Qden q)
          end.
Proof. unfold fl. apply Qred_correct. Qed.

Theorem fl_mono x y : x <= y -> fl x <= fl y.
Proof.
  intro H. rewrite !fl_eq.
  destruct x as [[|a|a] b], y as [[|c|c] d]; cbn [Qnum Qden].
  - apply Qle_refl.
  - apply Qlt_le_weak, fl_pos_gt0.
  - exfalso. unfold Qle in H. cbn in H. lia.
  - exfalso. unfold Qle in H. cbn in H. lia.
  - apply fl_pos_mono. assumption.
  - exfalso. unfold Qle in H. cbn in H. lia.
  - pose proof (fl_pos_gt0 a b). lra.
  - pose proof (fl_pos_gt0 a b). pose proof (fl_pos_gt0 c d). lra.
  - apply Qopp_le_compat. apply fl_pos_mono.
    unfold Qle in *. cbn in *. lia.
Qed.

Lemma fl_comp x y : x == y -> fl x = fl y.
Proof.
  intro H. unfold fl at 1 2.
  apply Qred_complete. rewrite <- !fl_eq.
  apply Qle_antisym; apply fl_mono; rewrite H; apply Qle_refl.
Qed.

Lemma fl_0 : fl 0 = 0%Q.
Proof. reflexivity. Qed.

Lemma fl_pos_sign x : 0 < x -> 0 < fl x.
Proof.
  intro H. rewrite fl_eq. destruct x as [[|a|a] b]; cbn [Qnum Qden].
  - exfalso. unfold Qlt in H. cbn in H. lia.
  - apply fl_pos_gt0.
  - exfalso. unfold Qlt in H. cbn in H. lia.
Qed.

Lemma fl_neg_sign x : x < 0 -> fl x < 0.
Proof.
  intro H. rewrite fl_eq. destruct x as [[|a|a] b]; cbn [Qnum Qden].
  - exfalso. unfold Qlt in H. cbn in H. lia.
  - exfalso. unfold Qlt in H. cbn in H. lia.
  - pose proof (fl_pos_gt0 a b). lra.
Qed.

Lemma fl_nonneg x : 0 <= x -> 0 <= fl x.
Proof. intro H. rewrite <- fl_0. apply fl_mono. assumption. Qed.

(** An integer below 2^53 is a number: rounding leaves it alone. *)
Lemma fl_pos_Z (a : positive) : (Zpos a < 2 ^ 53)%Z -> fl_pos a 1 == inject_Z (Zpos a).
Proof.
  intro H. rewrite fl_pos_eq.
  assert (He : (expo a 1 <= 0)%Z).
  { unfold expo. destruct (ilog2_spec a 1) as [L _].
    assert (L' : two ^ ilog2 a 1 < two ^ 53).
    { eapply Qle_lt_trans; [exact L|]. rewrite (pow2_Z 53) by lia.
      change (Zpos a # 1) with (inject_Z (Zpos a)). rewrite <- Zlt_Qlt. exact H. }
    apply Qpower_lt_compat_l_inv in L'; [lia | reflexivity]. }
  set (e := expo a 1) in *.
  assert (Hs : (Zpos a # 1) * two ^ (- e) == inject_Z (Zpos a * 2 ^ (- e))).
  { rewrite inject_Z_mult, (pow2_Z (- e)) by lia. reflexivity. }
  rewrite (rne_comp _ _ Hs), rne_Z, inject_Z_mult, <- (pow2_Z (- e)) by lia.
  rewrite <- Qmult_assoc, (Qmult_comm (two ^ (- e))), pow2_cancel. ring.
Qed.

Lemma fl_Z z : (0 <= z < 2 ^ 53)%Z -> fl (inject_Z z) = inject_Z z.
Proof.
  intros [H0 H]. destruct z as [|a|a]; [reflexivity| |lia].
  unfold fl. cbn [inject_Z Qnum Qden].
  rewrite (Qred_complete _ _ (fl_pos_Z a H)).
  apply Qcanon.Qred_identity. cbn [inject_Z Qnum Qden]. apply Z.gcd_1_r.
Qed.

End NumFacts.

Example fl_tenth : Num.fl (1 # 10) = (3602879701896397 # 36028797018963968)%Q.
Proof. vm_compute. reflexivity. Qed.

(** 0.15 is below the decimal 0.15 as a number, so it prints as 0.1; 0.25 is
    exact and prints as 0.3. *)
Example toFixed1_ties :
  Num.toFixed1 (Fin (Num.fl (15 # 100))) = Fin (1 # 10)
  /\ Num.toFixed1 (Fin (Num.fl (25 # 100))) = Fin (3 # 10).
Proof. vm_compute. split; reflexivity. Qed.

(** ** The sort *)

Section SortFacts.
Context {A : Type}.
Variable after : A -> A -> bool.

Lemma insert_perm x l : Permutation (insert after x l) (x :: l).
Proof.
  induction l as [|y l IH]; cbn.
  - apply Permutation_refl.
  - destruct (after x y).
    + eapply perm_trans; [apply perm_skip, IH | apply perm_swap].
    + apply Permutation_refl.
Qed.

Lemma sort_perm l : Permutation (sort after l) l.
Proof.
  induction l as [|x l IH]; cbn.
  - apply perm_nil.
  - eapply perm_trans; [apply insert_perm | apply perm_skip, IH].
Qed.

Lemma sort_Forall (P : A -> Prop) l : Forall P l -> Forall P (sort after l).
Proof.
  intro H. rewrite Forall_forall in *. intros x Hx. apply H.
  eapply Permutation_in; [apply sort_perm | exact Hx].
Qed.

Lemma sort_In x l : In x (sort after l) <-> In x l.
Proof.
  split; apply Permutation_in; [|apply Permutation_sym]; apply sort_perm.
Qed.

Lemma sort_length l : List.length (sort after l) = List.length l.
Proof. apply Permutation_length, sort_perm. Qed.
End SortFacts.

Section DescendingSort.
Context {A : Type}.
Variable k : A -> num.

Lemma after_desc_iff x y :
  defined (k x) -> defined (k y) ->
  ((after_desc k) x y = true <-> (value (k x) < value (k y))%Q).
Proof.
  unfold after_desc, defined. destruct (k x) as [|a], (k y) as [|b]; try congruence.
  intros _ _. cbn. rewrite negb_true_iff.
  split; intro H.
  - destruct (Qlt_le_dec a b) as [L|L]; [assumption|exfalso].
    assert (H' : (fl (b - a) <= 0)%Q).
    { rewrite <- NumFacts.fl_0. apply NumFacts.fl_mono. lra. }
    apply Qle_bool_iff in H'. congruence.
  - destruct (Qle_bool (fl (b - a)) 0) eqn:E; [exfalso|reflexivity].
    apply Qle_bool_iff in E.
    assert (P : (0 < fl (b - a))%Q) by (apply NumFacts.fl_pos_sign; lra).
    lra.
Qed.

Lemma after_desc_false x y :
  defined (k x) -> defined (k y) -> ((after_desc k) x y = false <-> (descending k) x y).
Proof.
  intros Hx Hy. unfold descending. rewrite <- not_true_iff_false, (after_desc_iff x y Hx Hy).
  split; intro H; [apply Qnot_lt_le | apply Qle_not_lt]; assumption.
Qed.

Lemma desc_trans x y z : (descending k) x y -> (descending k) y z -> (descending k) x z.
Proof. unfold descending. intros. eapply Qle_trans; eassumption. Qed.

Lemma insert_first x l :
  Forall (fun x => defined (k x)) (x :: l) -> Forall ((descending k) x) l -> insert (after_desc k) x l = x :: l.
Proof.
  intros Hok Hd. destruct l as [|y l]; [reflexivity|]. cbn [insert sort filter].
  inversion Hok as [|? ? Hx Hl]; subst. inversion Hl; subst. inversion Hd; subst.
  rewrite (proj2 (after_desc_false x y Hx ltac:(assumption))) by assumption.
  reflexivity.
Qed.

Lemma insert_sorted x l :
  Forall (fun x => defined (k x)) (x :: l) -> StronglySorted (descending k) l -> StronglySorted (descending k) (insert (after_desc k) x l).
Proof.
  intros Hok Hs. inversion Hok as [|? ? Hx Hl]; subst. clear Hok.
  induction Hs as [|y l Hs IH Hy]; cbn [insert sort filter].
  - constructor; constructor.
  - inversion Hl as [|? ? Hky Hl']; subst.
    destruct ((after_desc k) x y) eqn:E.
    + constructor; [apply IH; assumption|].
      rewrite Forall_forall. intros z Hz.
      apply (Permutation_in _ (insert_perm (after_desc k) x l)) in Hz. destruct Hz as [<-|Hz].
      * apply after_desc_iff in E; try assumption. unfold descending. lra.
      * rewrite Forall_forall in Hy. apply Hy, Hz.
    + apply after_desc_false in E; try assumption.
      constructor; [constructor; assumption|].
      constructor; [assumption|].
      rewrite Forall_forall in *. intros z Hz. eapply desc_trans; [exact E | apply Hy, Hz].
Qed.

Lemma sort_sorted l : Forall (fun x => defined (k x)) l -> StronglySorted (descending k) (sort (after_desc k) l).
Proof.
  induction l as [|x l IH]; intro H; cbn [insert sort filter].
  - constructor.
  - inversion H; subst. apply insert_sorted; [|apply IH; assumption].
    constructor; [assumption | apply sort_Forall; assumption].
Qed.

Lemma sort_of_sorted l : Forall (fun x => defined (k x)) l -> StronglySorted (descending k) l -> sort (after_desc k) l = l.
Proof.
  intros Hok Hs. induction Hs as [|x l Hs IH Hx]; [reflexivity|]. cbn [insert sort filter].
  inversion Hok; subst. rewrite IH by assumption.
  apply insert_first; [constructor|]; assumption.
Qed.

Lemma sort_idempotent l : Forall (fun x => defined (k x)) l -> sort (after_desc k) (sort (after_desc k) l) = sort (after_desc k) l.
Proof.
  intro H. apply sort_of_sorted; [apply sort_Forall | apply sort_sorted]; assumption.
Qed.

Lemma sorted_filter (p : A -> bool) l :
  StronglySorted (descending k) l -> StronglySorted (descending k) (filter p l).
Proof.
  induction 1 as [|x l Hs IH Hx]; cbn; [constructor|].
  destruct (p x); [|assumption].
  constructor; [assumption|].
  rewrite Forall_forall in *. intros z Hz. apply filter_In in Hz. apply Hx, Hz.
Qed.

Lemma filter_insert (p : A -> bool) x l :
  Forall (fun x => defined (k x)) (x :: l) -> StronglySorted (descending k) l ->
  filter p (insert (after_desc k) x l)
  = if p x then insert (after_desc k) x (filter p l) else filter p l.
Proof.
  intros Hok Hs. inversion Hok as [|? ? Hx Hl]; subst. clear Hok.
  induction Hs as [|y l Hs IH Hy].
  - cbn [insert filter]. destruct (p x); reflexivity.
  - inversion Hl as [|? ? Hky Hl']; subst.
    cbn [insert]. destruct (after_desc k x y) eqn:E.
    + cbn [filter]. rewrite (IH Hl').
      destruct (p y), (p x); cbn [insert]; try rewrite E; reflexivity.
    + apply after_desc_false in E; try assumption.
      assert (Hall : Forall (descending k x) (filter p (y :: l))).
      { rewrite Forall_forall. intros z Hz. apply filter_In in Hz. destruct Hz as [[<-|Hz] _].
        - assumption.
        - rewrite Forall_forall in Hy. eapply desc_trans; [exact E | apply Hy, Hz]. }
      assert (Hokf : Forall (fun x => defined (k x)) (x :: filter p (y :: l))).
      { constructor; [assumption|]. rewrite Forall_forall. intros z Hz.
        apply filter_In in Hz. rewrite Forall_forall in Hl. apply Hl, Hz. }
      rewrite (insert_first x _ Hokf Hall).
      set (yl := y :: l). cbn [filter]. reflexivity.
Qed.

(** A stable sort and a filter commute. *)
Lemma filter_sort (p : A -> bool) l :
  Forall (fun x => defined (k x)) l -> filter p (sort (after_desc k) l) = sort (after_desc k) (filter p l).
Proof.
  induction l as [|x l IH]; intro H; [reflexivity|]. cbn [insert sort filter].
  inversion H; subst.
  rewrite filter_insert;
    [| constructor; [assumption | apply sort_Forall; assumption]
     | apply sort_sorted; assumption].
  rewrite IH by assumption. destruct (p x); reflexivity.
Qed.
End DescendingSort.

(** ** Sentiment mix *)

Section SentimentMix.
Import AdminSettings.

Lemma tally_fold l a b c :
  fold_left tally l (mkCounts a b c)
  = mkCounts (a + howMany isPositive l) (b + howMany isNeutral l) (c + howMany isRisk l).
Proof.
  revert a b c. induction l as [|x l IH]; intros a b c.
  - cbn. f_equal; lia.
  - cbn [fold_left]. unfold tally at 2. unfold howMany, isNeutral in *.
    cbn [filter]. fold (isPositive x). fold (isRisk x).
    destruct (isPositive x) eqn:P; cbn [Positive Neutral Risk negb andb].
    + rewrite IH.
      assert (R : isRisk x = false).
      { unfold isPositive, isRisk, Num.gtb, Num.ltb, of_Z in *.
        destruct (ToNumber (sentiment_score x)); [discriminate|].
        rewrite negb_true_iff in P. rewrite negb_false_iff.
        apply Qle_bool_iff. destruct (Qle_bool q (inject_Z 7)) eqn:E; [discriminate|].
        apply Qlt_le_weak, Qnot_le_lt. intro C.
        assert (C' : (q <= inject_Z 7)%Q) by (eapply Qle_trans; [exact C | discriminate]).
        apply Qle_bool_iff in C'. congruence. }
      rewrite R. cbn [List.length]. f_equal; lia.
    + destruct (isRisk x) eqn:R; cbn [Positive Neutral Risk negb andb List.length];
        rewrite IH; f_equal; lia.
Qed.

Lemma buckets_partition l :
  (howMany isPositive l + howMany isNeutral l + howMany isRisk l = List.length l)%nat.
Proof.
  unfold howMany, isNeutral. induction l as [|x l IH]; [reflexivity|].
  cbn [filter List.length].
  destruct (isPositive x) eqn:P, (isRisk x) eqn:R; cbn [negb andb List.length]; try lia.
  exfalso. unfold isPositive, isRisk, Num.gtb, Num.ltb, of_Z in *.
  destruct (ToNumber (sentiment_score x)); [discriminate|].
  rewrite negb_true_iff in P, R.
  destruct (Qlt_le_dec q (inject_Z 4)) as [L|L].
  - assert (C : (q <= inject_Z 7)%Q).
    { apply Qlt_le_weak. eapply Qlt_le_trans; [exact L | discriminate]. }
    apply Qle_bool_iff in C. congruence.
  - apply Qle_bool_iff in L. congruence.
Qed.

Lemma mixTotal_nonzero (v : list Mix.t) :
  mixTotal (filter (fun c => (0 <? Mix.value c)%nat) v) = mixTotal v.
Proof.
  unfold mixTotal, list_sum. induction v as [|c v IH]; [reflexivity|].
  cbn [filter]. destruct (0 <? Mix.value c)%nat eqn:E.
  - cbn [map fold_right]. rewrite IH. reflexivity.
  - apply Nat.ltb_ge in E. rewrite IH. cbn [map fold_right]. lia.
Qed.
End SentimentMix.

(** C1, as stated, at one record without a score: the record is counted
    (as Neutral), so the bucket counts sum to 1 while no time-filtered
    record has a defined score. *)
Lemma sentiment_mix_counts_unscored :
  AdminSettings.filteredSentimentData AdminSettings.Monthly noon unscoredNews
  = [Mix.mk "Neutral" 1 "#f59e0b"]
  /\ mixTotal (AdminSettings.filteredSentimentData AdminSettings.Monthly noon unscoredNews)
     <> howMany hasSentiment
          (filter (AdminSettings.inWindow AdminSettings.Monthly noon) unscoredNews).
Proof. vm_compute. split; [reflexivity | discriminate]. Qed.

(** C1, amended: every time-filtered record is counted in exactly one
    bucket — Positive when its score is above 7, Risk when it is below 4,
    Neutral otherwise, which is where a record without a score ends up
    ([null] counts as 0, hence Risk) — so the bucket counts sum to the number
    of time-filtered records; empty buckets are dropped and the order is
    Positive, Neutral, Risk. *)
Theorem sentiment_mix_counts_every_record :
  forall (timeRange : AdminSettings.TimeRange) (now : Z) (rawNews : list NewsItem),
    let filtered := filter (AdminSettings.inWindow timeRange now) rawNews in
    let view := AdminSettings.filteredSentimentData timeRange now rawNews in
    view = filter (fun c => (0 <? Mix.value c)%nat)
             [ Mix.mk "Positive" (howMany isPositive filtered) "#10b981";
               Mix.mk "Neutral" (howMany isNeutral filtered) "#f59e0b";
               Mix.mk "Risk" (howMany isRisk filtered) "#ef4444" ]
    /\ mixTotal view = List.length filtered
    /\ (howMany isPositive filtered + howMany isNeutral filtered
        + howMany isRisk filtered = List.length filtered)%nat
    /\ (forall item, sentiment_score item = JUndefined -> isNeutral item = true)
    /\ (forall item, sentiment_score item = JNull -> isRisk item = true).
Proof.
  intros timeRange now rawNews filtered view.
  assert (E : view = filter (fun c => (0 <? Mix.value c)%nat)
             [ Mix.mk "Positive" (howMany isPositive filtered) "#10b981";
               Mix.mk "Neutral" (howMany isNeutral filtered) "#f59e0b";
               Mix.mk "Risk" (howMany isRisk filtered) "#ef4444" ]).
  { unfold view, AdminSettings.filteredSentimentData. fold filtered.
    rewrite tally_fold. reflexivity. }
  split; [exact E|]. split; [|split; [apply buckets_partition|split]].
  - rewrite E, mixTotal_nonzero. unfold mixTotal, list_sum. cbn [map fold_right Mix.value].
    pose proof (buckets_partition filtered). lia.
  - intros item H. unfold isNeutral, isPositive, isRisk. rewrite H. reflexivity.
  - intros item H. unfold isRisk. rewrite H. reflexivity.
Qed.

Example sentiment_scenario :
  AdminSettings.filteredSentimentData AdminSettings.Daily noon sentimentScenario
  = [ Mix.mk "Positive" 1 "#10b981"; Mix.mk "Neutral" 1 "#f59e0b"; Mix.mk "Risk" 1 "#ef4444" ].
Proof. vm_compute. reflexivity. Qed.

Lemma sentiment_mix_counts_every_record_witness :
  isNeutral (record 1 JUndefined JUndefined None None None NoDate (ISO (noon - 1))) = true.
Proof.
  apply (proj1 (proj2 (proj2 (proj2
           (sentiment_mix_counts_every_record AdminSettings.Monthly noon unscoredNews))))).
  reflexivity.
Defined.

(** ** Urgency and impact correlation *)

(** C3, as stated, at one record with urgency "Critical": the record is
    not rejected, it is in the view with weight 1. *)
Lemma scatter_keeps_unknown_urgency :
  ~ enumUrgency (Some "Critical")
  /\ AdminSettings.scatterData criticalNews = [Point.mk (JNumber 9) 1 "signal" 7].
Proof.
  split; [|reflexivity].
  intros [H|[H|H]]; discriminate H.
Qed.

(** C3, amended: the view has exactly one point per record, in the order
    of the records and with the record's impact, title and id; its weight is
    3 for High, 2 for Medium and 1 for every other urgency, Low, unknown or
    absent alike: no record is rejected. *)
Theorem scatter_one_point_per_record :
  forall (rawNews : list NewsItem),
    List.length (AdminSettings.scatterData rawNews) = List.length rawNews
    /\ forall (n : nat) (item : NewsItem),
         nth_error rawNews n = Some item ->
         exists pt,
           nth_error (AdminSettings.scatterData rawNews) n = Some pt
           /\ Point.id pt = id item /\ Point.title pt = title item
           /\ Point.impact pt = impact_score item
           /\ (urgency item = Some "High" -> Point.urgency pt = 3)
           /\ (urgency item = Some "Medium" -> Point.urgency pt = 2)
           /\ (urgency item <> Some "High" -> urgency item <> Some "Medium" ->
               Point.urgency pt = 1).
Proof.
  intro rawNews. unfold AdminSettings.scatterData. split; [apply length_map|].
  intros n item H. eexists. split; [apply map_nth_error; exact H|].
  cbn [Point.id Point.title Point.impact Point.urgency].
  repeat split; unfold AdminSettings.urgencyWeight, strict_eq.
  - intros ->. reflexivity.
  - intros ->. reflexivity.
  - intros NH NM. destruct (urgency item) as [u|]; [|reflexivity].
    destruct (String.eqb_spec u "High"); [subst; congruence|].
    destruct (String.eqb_spec u "Medium"); [subst; congruence|]. reflexivity.
Qed.

Lemma scatter_one_point_per_record_witness :
  exists pt,
    nth_error (AdminSettings.scatterData criticalNews) 0 = Some pt
    /\ Point.id pt = 7 /\ Point.urgency pt = 1.
Proof.
  destruct (proj2 (scatter_one_point_per_record criticalNews) 0%nat _ eq_refl)
    as [pt [H [Hid [_ [_ [_ [_ Hw]]]]]]].
  exists pt. split; [exact H|]. split; [exact Hid|].
  apply Hw; discriminate.
Defined.

(** ** Time windows *)


(** The two Daily cutoffs never coincide: the start of the day is less than
    24 hours back. *)
Lemma daily_window_never_agrees (now : Z) :
  NewsFeed.startDate NewsFeed.Daily now <> AdminSettings.startDate AdminSettings.Daily now.
Proof.
  cbn. unfold DateFns.startOfDay, DateFns.subHours, DateFns.msPerDay, DateFns.msPerHour.
  pose proof (Z.mod_pos_bound now 86400000 ltac:(lia)). lia.
Qed.

(** ** Risk distribution *)

Section RiskDistribution.
Import AdminSettings.

Lemma category_cases item :
  category item = "Policy" \/ category item = "Competition"
  \/ category item = "Supply Chain" \/ category item = "Financial"
  \/ category item = "Other" \/ category item = "None".
Proof.
  unfold category. set (r := or_else (risk_type item) "None").
  cbn [existsb risks].
  destruct (String.eqb_spec r "Policy") as [->|]; [auto|].
  destruct (String.eqb_spec r "Competition") as [->|]; [auto|].
  destruct (String.eqb_spec r "Supply Chain") as [->|]; [auto 6|].
  destruct (String.eqb_spec r "Financial") as [->|]; [auto 6|].
  destruct (String.eqb_spec r "Other") as [->|]; [auto 6|].
  destruct (String.eqb_spec r "None") as [->|]; cbn; auto 7.
Qed.

Lemma riskTable_ext f g : (forall r, f r = g r) -> riskTable f = riskTable g.
Proof. intro H. unfold riskTable. apply map_ext. intro r. rewrite H. reflexivity. Qed.

(** One round of the loop adds one to the counter of the record's
    category, and never fails. *)
Lemma countRisk_table f item :
  countRisk (Some (riskTable f)) item
  = Some (riskTable (fun r => if String.eqb (category item) r then S (f r) else f r)).
Proof.
  unfold countRisk, category. set (r := or_else (risk_type item) "None").
  unfold riskTable. cbn [existsb risks map increment Risk.name Risk.count].
  rewrite !(String.eqb_sym r).
  destruct (String.eqb_spec "Policy" r) as [<-|]; [reflexivity|].
  destruct (String.eqb_spec "Competition" r) as [<-|]; [reflexivity|].
  destruct (String.eqb_spec "Supply Chain" r) as [<-|]; [reflexivity|].
  destruct (String.eqb_spec "Financial" r) as [<-|]; [reflexivity|].
  destruct (String.eqb_spec "Other" r) as [<-|]; [reflexivity|].
  destruct (String.eqb_spec "None" r) as [<-|]; [reflexivity|].
  cbn. reflexivity.
Qed.

Lemma countRisk_fold l f :
  fold_left countRisk l (Some (riskTable f))
  = Some (riskTable (fun r => (f r + howMany (fun item => String.eqb (category item) r) l)%nat)).
Proof.
  revert f. induction l as [|x l IH]; intro f.
  - cbn [fold_left]. f_equal. apply riskTable_ext. intro r. unfold howMany. cbn. lia.
  - cbn [fold_left]. rewrite countRisk_table, IH. f_equal. apply riskTable_ext. intro r.
    unfold howMany. cbn [filter]. destruct (String.eqb (category x) r); cbn [List.length]; lia.
Qed.

Lemma riskTotal_nonzero (v : list Risk.t) :
  riskTotal (filter (fun c => (0 <? Risk.count c)%nat) v) = riskTotal v.
Proof.
  unfold riskTotal, list_sum. induction v as [|c v IH]; [reflexivity|].
  cbn [filter]. destruct (0 <? Risk.count c)%nat eqn:E.
  - cbn [map fold_right]. rewrite IH. reflexivity.
  - apply Nat.ltb_ge in E. rewrite IH. cbn [map fold_right]. lia.
Qed.

Lemma riskTable_total l :
  riskTotal (riskTable (fun r => howMany (fun item => String.eqb (category item) r) l))
  = List.length l.
Proof.
  unfold riskTotal, riskTable, list_sum, howMany.
  cbn [risks map fold_right Risk.count].
  induction l as [|x l IH]; [reflexivity|].
  cbn [filter List.length].
  destruct (category_cases x) as [E|[E|[E|[E|[E|E]]]]]; rewrite E;
    cbn [String.eqb Ascii.eqb Bool.eqb andb List.length]; lia.
Qed.
End RiskDistribution.



(** ** Configuration *)

Section Reconciler.
Import AdminSettings.

Lemma syncConfig_hydrated config st : keywords st <> [] -> syncConfig config st = st.
Proof.
  intro H. unfold syncConfig. destruct config as [c|]; [|reflexivity].
  destruct (keywords st); [contradiction | reflexivity].
Qed.

Lemma syncConfig_empty config st :
  keywords st = [] ->
  keywords (syncConfig (Some config) st) = search_keywords config
  /\ interval (syncConfig (Some config) st) = scraping_interval_minutes config.
Proof. intro H. unfold syncConfig. rewrite H. split; reflexivity. Qed.

Lemma sameKeywords_eq a b : sameKeywords a b = true <-> a = b.
Proof.
  revert b. induction a as [|x a IH]; intros [|y b]; cbn [sameKeywords];
    try (split; [discriminate | discriminate]); [split; reflexivity|].
  rewrite andb_true_iff, String.eqb_eq, IH. split.
  - intros [-> ->]. reflexivity.
  - intro E. injection E as -> ->. split; reflexivity.
Qed.

Lemma sameConfig_eq a b : sameConfig a b = true <-> a = b.
Proof.
  unfold sameConfig. rewrite andb_true_iff, sameKeywords_eq, Z.eqb_eq.
  destruct a as [ka ia], b as [kb ib]. cbn [search_keywords scraping_interval_minutes].
  split.
  - intros [-> ->]. reflexivity.
  - intro E. injection E as -> ->. split; reflexivity.
Qed.

Lemma unchanged_iff held answer : unchanged held answer = true <-> held = Some answer.
Proof.
  destruct held as [c|]; cbn [unchanged].
  - rewrite sameConfig_eq. split; [intros ->; reflexivity | intro E; injection E as ->; reflexivity].
  - split; discriminate.
Qed.

Lemma receive_unchanged answer p : config p = Some answer -> receive answer p = p.
Proof.
  intro H. unfold receive. apply unchanged_iff in H. rewrite H. reflexivity.
Qed.

Lemma receive_changed answer p :
  config p <> Some answer ->
  receive answer p = mkPage (Some answer) (syncConfig (Some answer) (local p)).
Proof.
  intro H. unfold receive. destruct (unchanged (config p) answer) eqn:E; [|reflexivity].
  apply unchanged_iff in E. contradiction.
Qed.

Lemma config_receive answer p : config (receive answer p) = Some answer.
Proof.
  unfold receive. destruct (unchanged (config p) answer) eqn:E; [|reflexivity].
  apply unchanged_iff, E.
Qed.

Lemma receive_hydrated answer p :
  keywords (local p) <> [] -> local (receive answer p) = local p.
Proof.
  intro H. unfold receive. destruct (unchanged (config p) answer); [reflexivity|].
  cbn [local]. apply syncConfig_hydrated, H.
Qed.

Lemma receive_empty answer p :
  keywords (local p) = [] -> config p <> Some answer ->
  keywords (local (receive answer p)) = search_keywords answer
  /\ interval (local (receive answer p)) = scraping_interval_minutes answer.
Proof.
  intros H Hc. rewrite (receive_changed answer p Hc). cbn [local].
  apply syncConfig_empty, H.
Qed.

Lemma remove_appended kw l :
  ~ In kw l -> filter (fun k => negb (String.eqb k kw)) (l ++ [kw]) = l.
Proof.
  intro H. rewrite filter_app. cbn [filter]. rewrite String.eqb_refl. cbn [negb].
  rewrite app_nil_r. induction l as [|x l IH]; [reflexivity|].
  cbn [filter]. destruct (String.eqb_spec x kw) as [->|].
  - exfalso. apply H. left. reflexivity.
  - cbn [negb]. rewrite IH; [reflexivity|]. intro C. apply H. right. exact C.
Qed.

Lemma includes_In l s : includes l s = true <-> In s l.
Proof.
  unfold includes. rewrite existsb_exists. split.
  - intros [x [Hx E]]. apply String.eqb_eq in E. subst. exact Hx.
  - intro H. exists s. split; [exact H | apply String.eqb_refl].
Qed.
End Reconciler.

(** C6, as stated: the configuration is not hydrated exactly once.  The
    first answer is copied; the user removes the only keyword; the next
    answer is copied as well, keywords and interval. *)
Lemma hydration_happens_twice :
  let first := AdminSettings.receive (AdminSettings.mkConfig ["EV"] 60)
                 (AdminSettings.mount None) in
  let emptied := fst (AdminSettings.handle first (AdminSettings.RemoveClicked "EV")) in
  let second := AdminSettings.receive (AdminSettings.mkConfig ["Steel"] 30) emptied in
  AdminSettings.localConfig (AdminSettings.local first) = AdminSettings.mkConfig ["EV"] 60
  /\ AdminSettings.keywords (AdminSettings.local emptied) = []
  /\ AdminSettings.localConfig (AdminSettings.local second)
     = AdminSettings.mkConfig ["Steel"] 30.
Proof. cbv. repeat split. Qed.

(** C6: the remote configuration is copied only while the local keyword list
    is empty, and not once only.  With a non-empty list no answer, and no
    sequence of answers, changes the local state; an answer that changes it
    found the list empty and was not the configuration already held; and
    every such answer is copied, keywords and interval, however many were
    copied before.  From the first render an answer of ["EV"; "Steel"]
    hydrates the list, and a second answer of ["EV"] leaves the local state
    as it is. *)
Theorem hydration_only_while_empty :
  (forall (p : AdminSettings.Page) (answer : AdminSettings.Config),
      AdminSettings.keywords (AdminSettings.local p) <> [] ->
      AdminSettings.local (AdminSettings.receive answer p) = AdminSettings.local p)
  /\ (forall (p : AdminSettings.Page) (answers : list AdminSettings.Config),
        AdminSettings.keywords (AdminSettings.local p) <> [] ->
        AdminSettings.local (AdminSettings.run (map AdminSettings.Fetched answers) p)
        = AdminSettings.local p)
  /\ (forall (p : AdminSettings.Page) (answer : AdminSettings.Config),
        AdminSettings.local (AdminSettings.receive answer p) <> AdminSettings.local p ->
        AdminSettings.keywords (AdminSettings.local p) = []
        /\ AdminSettings.config p <> Some answer)
  /\ (forall (p : AdminSettings.Page) (answer : AdminSettings.Config),
        AdminSettings.keywords (AdminSettings.local p) = [] ->
        AdminSettings.config p <> Some answer ->
        AdminSettings.localConfig (AdminSettings.local (AdminSettings.receive answer p))
        = answer)
  /\ (forall i j : Z,
        let hydrated :=
          AdminSettings.receive (AdminSettings.mkConfig ["EV"; "Steel"] i)
                                (AdminSettings.mount None) in
        AdminSettings.keywords (AdminSettings.local hydrated) = ["EV"; "Steel"]
        /\ AdminSettings.interval (AdminSettings.local hydrated) = i
        /\ AdminSettings.local (AdminSettings.receive (AdminSettings.mkConfig ["EV"] j) hydrated)
           = AdminSettings.local hydrated).
Proof.
  split; [|split; [|split; [|split]]].
  - intros p answer H. apply receive_hydrated, H.
  - intros p answers. revert p. induction answers as [|a l IH]; intros p H; [reflexivity|].
    unfold AdminSettings.run in *. cbn [map fold_left AdminSettings.handle fst].
    rewrite IH; rewrite receive_hydrated by exact H; [reflexivity | exact H].
  - intros p answer H. split.
    + destruct (AdminSettings.keywords (AdminSettings.local p)) eqn:E; [reflexivity|].
      exfalso. apply H, receive_hydrated. rewrite E. discriminate.
    + intro C. apply H. rewrite (receive_unchanged answer p C). reflexivity.
  - intros p answer H Hc. destruct (receive_empty answer p H Hc) as [K I].
    unfold AdminSettings.localConfig. rewrite K, I. destruct answer. reflexivity.
  - intros i j hydrated.
    assert (K : AdminSettings.keywords (AdminSettings.local hydrated) = ["EV"; "Steel"]).
    { reflexivity. }
    split; [exact K|]. split; [reflexivity|].
    apply receive_hydrated. rewrite K. discriminate.
Qed.

Lemma hydration_only_while_empty_witness :
  AdminSettings.local
    (AdminSettings.receive (AdminSettings.mkConfig ["EV"] 30)
       (AdminSettings.mkPage (Some (AdminSettings.mkConfig ["EV"; "Steel"] 60))
          (AdminSettings.mkState ["EV"; "Steel"] 60 "" "EV")))
  = AdminSettings.mkState ["EV"; "Steel"] 60 "" "EV".
Proof.
  apply (proj1 hydration_only_while_empty). cbn. discriminate.
Defined.

(** C10, as stated: with an empty local keyword list a successful fetch is
    not always copied.  An empty configuration with interval 60 is fetched
    and copied, the slider is moved to 45, and the same configuration is
    fetched again: [config] is the object it was, the effect does not run,
    and the interval stays 45. *)
Lemma unchanged_answer_is_not_copied :
  let p := AdminSettings.run
             [ AdminSettings.Fetched (AdminSettings.mkConfig [] 60);
               AdminSettings.IntervalMoved 45 ]
             (AdminSettings.mount None) in
  AdminSettings.keywords (AdminSettings.local p) = []
  /\ AdminSettings.interval
       (AdminSettings.local (AdminSettings.receive (AdminSettings.mkConfig [] 60) p))
     = 45.
Proof. cbv. split; reflexivity. Qed.

(** C10: the guard looks at the local keyword list only, and the effect runs
    when [config] is a new object.  While the list is empty, an answer that
    differs from the configuration held is copied, keywords and interval,
    and an answer equal to it changes nothing.  A fetch of an empty keyword
    list therefore leaves the list empty, and a later fetch of a non-empty
    list overwrites the local state, an interval chosen in between
    included. *)
Theorem hydration_never_latches_on_empty :
  forall (p : AdminSettings.Page) (answer : AdminSettings.Config),
    AdminSettings.keywords (AdminSettings.local p) = [] ->
    (AdminSettings.config p <> Some answer ->
     AdminSettings.keywords (AdminSettings.local (AdminSettings.receive answer p))
       = AdminSettings.search_keywords answer
     /\ AdminSettings.interval (AdminSettings.local (AdminSettings.receive answer p))
        = AdminSettings.scraping_interval_minutes answer)
    /\ (AdminSettings.config p = Some answer -> AdminSettings.receive answer p = p)
    /\ forall (i j : Z) (later : AdminSettings.Config),
         AdminSettings.search_keywords later <> [] ->
         let first := AdminSettings.receive (AdminSettings.mkConfig [] i) p in
         let moved := fst (AdminSettings.handle first (AdminSettings.IntervalMoved j)) in
         let second := AdminSettings.receive later moved in
         AdminSettings.keywords (AdminSettings.local first) = []
         /\ AdminSettings.interval (AdminSettings.local moved) = j
         /\ AdminSettings.keywords (AdminSettings.local second)
            = AdminSettings.search_keywords later
         /\ AdminSettings.interval (AdminSettings.local second)
            = AdminSettings.scraping_interval_minutes later.
Proof.
  intros p answer H. split; [intro Hc; apply receive_empty; assumption|].
  split; [apply receive_unchanged|].
  intros i j later Hl first moved second.
  assert (F : AdminSettings.keywords (AdminSettings.local first) = []).
  { unfold first, AdminSettings.receive.
    destruct (AdminSettings.unchanged (AdminSettings.config p) (AdminSettings.mkConfig [] i));
      [exact H|].
    cbn [AdminSettings.local]. apply (syncConfig_empty (AdminSettings.mkConfig [] i)), H. }
  assert (C : AdminSettings.config moved = Some (AdminSettings.mkConfig [] i)).
  { unfold moved. cbn [AdminSettings.handle AdminSettings.onLocal fst AdminSettings.config].
    apply config_receive. }
  split; [exact F|]. split; [reflexivity|].
  apply receive_empty.
  - unfold moved. cbn. exact F.
  - rewrite C. intro E. injection E as E. apply Hl. rewrite <- E. reflexivity.
Qed.

Lemma hydration_never_latches_on_empty_witness :
  AdminSettings.keywords
    (AdminSettings.local
       (AdminSettings.receive (AdminSettings.mkConfig ["EV"] 30)
          (fst (AdminSettings.handle
                  (AdminSettings.receive (AdminSettings.mkConfig [] 60)
                     (AdminSettings.mount None))
                  (AdminSettings.IntervalMoved 45)))))
  = ["EV"].
Proof.
  refine (proj1 (proj2 (proj2 (proj2 (proj2 (hydration_never_latches_on_empty
            (AdminSettings.mount None) (AdminSettings.mkConfig [] 60) eq_refl))
            60 45 (AdminSettings.mkConfig ["EV"] 30) _)))).
  cbn. discriminate.
Defined.

(** C7, as stated, at a keyword list that already holds "Solar": the add is
    refused and the remove then deletes the keyword that was there. *)
Lemma add_remove_solar_already_present :
  AdminSettings.keywords solarState = ["Solar"]
  /\ AdminSettings.keywords
       (fst (AdminSettings.removeKeyword "Solar" (fst (AdminSettings.addKeyword solarState))))
     = [].
Proof. split; reflexivity. Qed.

(** C7, amended: for every keyword list that does not hold "Solar" yet,
    typing "Solar", adding it and removing it gives the list back; the add
    appends at the end and posts the longer list, the remove posts the
    original one. *)
Theorem add_remove_solar_round_trip :
  forall (st : AdminSettings.State),
    ~ In "Solar" (AdminSettings.keywords st) ->
    let added := AdminSettings.addKeyword (AdminSettings.typeKeyword "Solar" st) in
    let removed := AdminSettings.removeKeyword "Solar" (fst added) in
    AdminSettings.keywords (fst added) = AdminSettings.keywords st ++ ["Solar"]
    /\ AdminSettings.keywords (fst removed) = AdminSettings.keywords st
    /\ option_map AdminSettings.search_keywords (snd added)
       = Some (AdminSettings.keywords st ++ ["Solar"])
    /\ option_map AdminSettings.search_keywords (snd removed)
       = Some (AdminSettings.keywords st).
Proof.
  intros st H added removed.
  assert (I : AdminSettings.includes (AdminSettings.keywords st) "Solar" = false).
  { apply not_true_iff_false. rewrite includes_In. exact H. }
  assert (A : added
              = (AdminSettings.mkState (AdminSettings.keywords st ++ ["Solar"])
                   (AdminSettings.interval st) "" (AdminSettings.selectedIndustry st),
                 Some (AdminSettings.mkConfig (AdminSettings.keywords st ++ ["Solar"])
                         (AdminSettings.interval st)))).
  { unfold added, AdminSettings.addKeyword, AdminSettings.typeKeyword.
    cbn [AdminSettings.newKeyword AdminSettings.keywords AdminSettings.interval
         AdminSettings.selectedIndustry].
    rewrite I. reflexivity. }
  unfold removed. rewrite A. unfold AdminSettings.removeKeyword.
  cbn [fst snd AdminSettings.keywords option_map AdminSettings.updateConfig
       AdminSettings.search_keywords].
  rewrite (remove_appended "Solar" _ H). repeat split.
Qed.

Lemma add_remove_solar_round_trip_witness :
  AdminSettings.keywords
    (fst (AdminSettings.removeKeyword "Solar"
            (fst (AdminSettings.addKeyword
                    (AdminSettings.typeKeyword "Solar"
                       (AdminSettings.mkState ["EV"; "Steel"] 60 "" "EV"))))))
  = ["EV"; "Steel"].
Proof.
  refine (proj1 (proj2 (add_remove_solar_round_trip
                          (AdminSettings.mkState ["EV"; "Steel"] 60 "" "EV") _))).
  cbn. intros [H|[H|[]]]; discriminate H.
Defined.

(** ** Industry ranking *)

Section IndustryRanking.
Import AdminSettings.

Lemma lookup_accumulate t tag x (agg : Aggregation) :
  lookup t (accumulate tag x agg)
  = if String.eqb tag t
    then Some (match lookup tag agg with
               | Some c => Agg.mk (Agg.name c) (Num.add (Agg.score c) x) (S (Agg.count c))
               | None => Agg.mk tag (Num.add (of_Z 0) x) 1
               end)
    else lookup t agg.
Proof.
  induction agg as [|[k c] rest IH]; cbn [accumulate lookup].
  - reflexivity.
  - destruct (String.eqb_spec k tag) as [->|Hk]; cbn [lookup].
    + destruct (String.eqb_spec tag t); reflexivity.
    + rewrite IH. destruct (String.eqb_spec tag t) as [<-|Ht].
      * destruct (String.eqb_spec k tag); [contradiction | reflexivity].
      * reflexivity.
Qed.

Lemma keys_accumulate tag x (agg : Aggregation) :
  map fst (accumulate tag x agg)
  = if existsb (String.eqb tag) (map fst agg) then map fst agg else map fst agg ++ [tag].
Proof.
  induction agg as [|[k c] rest IH]; cbn [accumulate map fst existsb app].
  - reflexivity.
  - rewrite (String.eqb_sym tag k).
    destruct (String.eqb k tag); cbn [map fst orb]; [reflexivity|].
    rewrite IH. destruct (existsb (String.eqb tag) (map fst rest)); reflexivity.
Qed.

Lemma keys_accumulate_NoDup tag x (agg : Aggregation) :
  NoDup (map fst agg) -> NoDup (map fst (accumulate tag x agg)).
Proof.
  intro H. rewrite keys_accumulate.
  destruct (existsb (String.eqb tag) (map fst agg)) eqn:E; [exact H|].
  apply NoDup_app; [exact H | constructor; [intros []|constructor] |].
  intros k Hin [Ek|[]]. subst k.
  assert (C : existsb (String.eqb tag) (map fst agg) = true).
  { apply existsb_exists. exists tag. split; [exact Hin | apply String.eqb_refl]. }
  congruence.
Qed.

Lemma lookup_In {V : Type} k (v : V) o :
  NoDup (map fst o) -> (In (k, v) o <-> lookup k o = Some v).
Proof.
  induction o as [|[k' v'] rest IH]; cbn [map fst lookup In]; intro H.
  - split; [intros [] | discriminate].
  - inversion H as [|? ? Hnot Hnd]; subst.
    destruct (String.eqb_spec k' k) as [->|Hk].
    + split.
      * intros [E|Hin]; [congruence|]. exfalso. apply Hnot.
        apply (in_map fst) in Hin. exact Hin.
      * intro E. left. congruence.
    + rewrite <- (IH Hnd). split.
      * intros [E|Hin]; [congruence | exact Hin].
      * intro Hin. right. exact Hin.
Qed.

Lemma members_app t l1 l2 : members t (l1 ++ l2) = members t l1 ++ members t l2.
Proof. apply filter_app. Qed.

Lemma impactSum_snoc l x :
  impactSum (l ++ [x]) = Num.add (impactSum l) (ToNumber (impact_score x)).
Proof. unfold impactSum. rewrite fold_left_app. reflexivity. Qed.

(** The record the loop keeps for a tag: sum and count over all the records
    of the tag, in their order. *)
Lemma aggregation_lookup rawNews t :
  lookup t (fold_left aggregate rawNews [])
  = if Obj.is_inherited t then None
    else match members t rawNews with
         | [] => None
         | m => Some (Agg.mk t (impactSum m) (List.length m))
         end.
Proof.
  induction rawNews as [|x l IH] using rev_ind.
  - cbn [fold_left lookup members filter]. destruct (Obj.is_inherited t); reflexivity.
  - rewrite fold_left_app. cbn [fold_left]. unfold aggregate at 1. fold (tagOf x).
    rewrite members_app. cbn [members filter].
    destruct (Obj.is_inherited (tagOf x)) eqn:Ix.
    + rewrite IH. destruct (Obj.is_inherited t) eqn:It; [reflexivity|].
      destruct (String.eqb_spec (tagOf x) t) as [E|E]; [congruence|].
      rewrite app_nil_r. reflexivity.
    + rewrite lookup_accumulate.
      destruct (String.eqb_spec (tagOf x) t) as [E|E].
      * subst t. rewrite Ix. rewrite IH, Ix.
        destruct (members (tagOf x) l) as [|y m] eqn:M.
        -- reflexivity.
        -- cbn [Agg.name Agg.score Agg.count app].
           change (y :: m ++ [x]) with ((y :: m) ++ [x]).
           rewrite impactSum_snoc, length_app. cbn [List.length].
           rewrite Nat.add_1_r. reflexivity.
      * rewrite IH, app_nil_r. reflexivity.
Qed.

Lemma aggregation_NoDup rawNews : NoDup (map fst (fold_left aggregate rawNews [])).
Proof.
  induction rawNews as [|x l IH] using rev_ind.
  - constructor.
  - rewrite fold_left_app. cbn [fold_left]. unfold aggregate at 1.
    destruct (Obj.is_inherited _); [exact IH | apply keys_accumulate_NoDup, IH].
Qed.

Lemma partition_perm {V : Type} (p : V -> bool) l :
  Permutation (filter p l ++ filter (fun x => negb (p x)) l) l.
Proof.
  induction l as [|x l IH]; [constructor|]. cbn [filter].
  destruct (p x); cbn [negb app].
  - constructor. exact IH.
  - apply Permutation_sym, Permutation_cons_app, Permutation_sym, IH.
Qed.

Lemma values_perm {V : Type} (o : list (string * V)) :
  Permutation (Obj.values o) (map snd o).
Proof.
  unfold Obj.values. apply Permutation_map.
  eapply perm_trans; [|apply (partition_perm Obj.is_index)].
  apply Permutation_app_tail, sort_perm.
Qed.

Lemma mean_of_members t m :
  mean (Agg.mk t (impactSum m) (List.length m)) = Rank.mk t (meanOf m).
Proof. reflexivity. Qed.

Lemma aggregation_In rawNews k c :
  In (k, c) (fold_left aggregate rawNews [])
  <-> Obj.is_inherited k = false /\ members k rawNews <> []
      /\ c = Agg.mk k (impactSum (members k rawNews)) (List.length (members k rawNews)).
Proof.
  rewrite (lookup_In k c _ (aggregation_NoDup rawNews)), aggregation_lookup.
  destruct (Obj.is_inherited k).
  - split; [discriminate | intros [H _]; discriminate H].
  - destruct (members k rawNews) as [|y m].
    + split; [discriminate | intros [_ [H _]]; contradiction].
    + split.
      * intro H. injection H as <-. repeat split. discriminate.
      * intros [_ [_ ->]]. reflexivity.
Qed.

(** The entries of the view: one per tag that has records and is not an
    inherited property name, with the mean over all the records of the tag. *)
Lemma ranking_In rawNews e :
  In e (industryImpactData rawNews)
  <-> exists t, Obj.is_inherited t = false /\ members t rawNews <> []
                /\ e = Rank.mk t (meanOf (members t rawNews)).
Proof.
  unfold industryImpactData, js_sort. rewrite sort_In, in_map_iff. split.
  - intros [c [<- Hc]].
    apply (Permutation_in _ (values_perm _)) in Hc. apply in_map_iff in Hc.
    destruct Hc as [[k c'] [Hs Hin]]. cbn [snd] in Hs. subst c'.
    apply aggregation_In in Hin. destruct Hin as [Hi [Hm ->]].
    exists k. repeat split; assumption.
  - intros [t [Hi [Hm ->]]].
    exists (Agg.mk t (impactSum (members t rawNews)) (List.length (members t rawNews))).
    split; [reflexivity|].
    apply (Permutation_in _ (Permutation_sym (values_perm _))). apply in_map_iff.
    exists (t, Agg.mk t (impactSum (members t rawNews)) (List.length (members t rawNews))).
    split; [reflexivity|]. apply aggregation_In. repeat split; assumption.
Qed.

Lemma ranking_names_NoDup rawNews : NoDup (map Rank.name (industryImpactData rawNews)).
Proof.
  unfold industryImpactData, js_sort.
  eapply Permutation_NoDup.
  - apply Permutation_sym, Permutation_map. eapply perm_trans; [apply sort_perm|].
    apply Permutation_map, values_perm.
  - rewrite !map_map.
    rewrite (map_ext_in _ fst); [apply aggregation_NoDup|].
    intros [k c] Hin. apply aggregation_In in Hin. destruct Hin as [_ [_ ->]]. reflexivity.
Qed.

Lemma add_NaN_fold l :
  fold_left (fun s item => Num.add s (ToNumber (impact_score item))) l NaN = NaN.
Proof. induction l as [|x l IH]; [reflexivity | exact IH]. Qed.

Lemma impactSum_undefined l :
  Exists (fun item => impact_score item = JUndefined) l -> impactSum l = NaN.
Proof.
  unfold impactSum. generalize (of_Z 0).
  induction l as [|x l IH]; intros a H; inversion H as [? ? Hx|? ? Hl]; subst; cbn [fold_left].
  - rewrite Hx. cbn [ToNumber]. destruct a; apply add_NaN_fold.
  - apply IH, Hl.
Qed.

Lemma meanOf_undefined l :
  Exists (fun item => impact_score item = JUndefined) l -> meanOf l = NaN.
Proof. intro H. unfold meanOf. rewrite (impactSum_undefined l H). reflexivity. Qed.

(** *** Bounds of the mean *)

Lemma fl_le_Z x z : (0 <= z < 2 ^ 53)%Z -> (x <= inject_Z z)%Q -> (fl x <= inject_Z z)%Q.
Proof.
  intros Hz H. apply Qle_trans with (fl (inject_Z z)).
  - apply NumFacts.fl_mono. exact H.
  - rewrite (NumFacts.fl_Z z Hz). apply Qle_refl.
Qed.

Lemma impactSum_bound l a n :
  (0 <= a <= inject_Z (10 * Z.of_nat n))%Q ->
  (Z.of_nat n + Z.of_nat (List.length l) < 2 ^ 32)%Z ->
  Forall impactInRange l ->
  exists s,
    fold_left (fun s item => Num.add s (ToNumber (impact_score item))) l (Fin a) = Fin s
    /\ (0 <= s <= inject_Z (10 * Z.of_nat (n + List.length l)))%Q.
Proof.
  revert a n. induction l as [|x l IH]; intros a n Ha Hn Hl.
  - exists a. rewrite Nat.add_0_r. split; [reflexivity | exact Ha].
  - inversion Hl as [|? ? [q [Eq Hq]] Hl']; subst. cbn [fold_left].
    rewrite Eq. cbn [ToNumber Num.add]. cbn [List.length] in Hn.
    destruct (IH (fl (a + q)) (S n)) as [s [Es Hs]].
    + split.
      * apply NumFacts.fl_nonneg. lra.
      * apply fl_le_Z; [lia|].
        replace (10 * Z.of_nat (S n))%Z with (10 * Z.of_nat n + 10)%Z by lia.
        rewrite inject_Z_plus. lra.
    + lia.
    + exact Hl'.
    + exists s. split; [exact Es|].
      cbn [List.length]. replace (n + S (List.length l))%nat with (S n + List.length l)%nat by lia.
      exact Hs.
Qed.

Lemma round_half_up_bounds x :
  (0 <= x <= inject_Z 100)%Q -> (0 <= Num.round_half_up x <= 100)%Z.
Proof.
  intros [H0 H1]. unfold Num.round_half_up. split.
  - change 0%Z with (Qfloor 0). apply Qfloor_resp_le. lra.
  - assert (L : (Qfloor (x + (1 # 2)) <= Qfloor (inject_Z 100 + (1 # 2)))%Z)
      by (apply Qfloor_resp_le; lra).
    exact L.
Qed.

Lemma toFixed1_bounds q :
  (0 <= q <= inject_Z 10)%Q -> scoreInRange (Num.parseFloat (Num.toFixed1 (Fin q))).
Proof.
  intros [H0 H1]. unfold Num.toFixed1.
  assert (A : Qabs q == q) by (apply Qabs_pos; exact H0).
  destruct (Qle_bool (inject_Z (10 ^ 21)) (Qabs q)) eqn:Big.
  - exfalso. apply Qle_bool_iff in Big. rewrite A in Big.
    assert (C : (inject_Z (10 ^ 21) <= inject_Z 10)%Q) by (eapply Qle_trans; eassumption).
    rewrite <- Zle_Qle in C. lia.
  - assert (P : Qle_bool 0 q = true) by (apply Qle_bool_iff; exact H0).
    rewrite P. cbn [Num.parseFloat].
    destruct (round_half_up_bounds (q * inject_Z 10)) as [R0 R1].
    { change (inject_Z 10) with (10 # 1) in *. change (inject_Z 100) with (100 # 1). lra. }
    set (r := Num.round_half_up (q * inject_Z 10)) in *.
    rewrite Zle_Qle in R0. rewrite Zle_Qle in R1.
    eexists. split; [reflexivity|]. split.
    + apply NumFacts.fl_nonneg.
      change (inject_Z 10) with (10 # 1). change (inject_Z 0) with 0%Q in R0.
      apply Qle_shift_div_l; [reflexivity | lra].
    + apply fl_le_Z; [lia|].
      change (inject_Z 10) with (10 # 1). change (inject_Z 100) with (100 # 1) in R1.
      apply Qle_shift_div_r; [reflexivity | lra].
Qed.

Lemma meanOf_bounds l :
  l <> [] -> (Z.of_nat (List.length l) < 2 ^ 32)%Z -> Forall impactInRange l ->
  scoreInRange (meanOf l).
Proof.
  intros Hne Hlen Hl. unfold meanOf, impactSum, of_Z.
  destruct (impactSum_bound l 0 0) as [s [Es [S0 S1]]];
    [split; [apply Qle_refl | discriminate] | lia | exact Hl |].
  change (inject_Z 0) with 0%Q. rewrite Es.
  assert (Hpos : (0 < List.length l)%nat) by (destruct l; [contradiction | cbn; lia]).
  cbn [Nat.add] in S1.
  set (n := Z.of_nat (List.length l)) in *.
  assert (Hn : (0 < inject_Z n)%Q) by (rewrite <- (Zlt_Qlt 0); lia).
  unfold of_nat, of_Z, Num.div. fold n.
  destruct (Qeq_bool (inject_Z n) 0) eqn:Z0.
  - exfalso. apply Qeq_bool_eq in Z0. lra.
  - destruct (toFixed1_bounds (fl (s / inject_Z n))) as [q [Eq Hq]].
    + split.
      * apply NumFacts.fl_nonneg. apply Qle_shift_div_l; [exact Hn | lra].
      * apply fl_le_Z; [lia|].
        apply Qle_shift_div_r; [exact Hn|].
        rewrite inject_Z_mult in S1. exact S1.
    + exists q. split; assumption.
Qed.

End IndustryRanking.




(** C9, as stated, at two records tagged EV, one with impact score 8 and
    one without: the scores that are there lie in the range and one is
    defined, but the only entry has the score NaN, which is not between 0
    and 10. *)
Lemma ranking_score_nan_out_of_range :
  AdminSettings.industryImpactData partlyRatedNews = [Rank.mk "EV" NaN]
  /\ ~ scoreInRange NaN
  /\ Exists (fun item => hasImpact item = true) partlyRatedNews
  /\ Forall (fun item => hasImpact item = true -> impactInRange item) partlyRatedNews.
Proof.
  split; [vm_compute; reflexivity|]. split; [intros [q [H _]]; discriminate H|]. split.
  - left. reflexivity.
  - constructor; [|constructor; [|constructor]].
    + intros _. exists 8%Q. split; [reflexivity|]. split; discriminate.
    + intro H. discriminate H.
Qed.

(** C9, amended: when every record has an impact score in the 0-10 range
    (an array holds fewer than 2^32 records), every entry of the view has a
    score between 0 and 10 and the scores do not increase along the view;
    two records tagged EV with impact scores 8 and 6 give exactly one entry,
    EV with 7. *)
Theorem ranking_scores_bounded_sorted :
  (forall (rawNews : list NewsItem),
      (Z.of_nat (List.length rawNews) < 2 ^ 32)%Z ->
      Forall impactInRange rawNews ->
      Forall (fun e => scoreInRange (Rank.score e)) (AdminSettings.industryImpactData rawNews)
      /\ StronglySorted (descending Rank.score) (AdminSettings.industryImpactData rawNews))
  /\ AdminSettings.industryImpactData evScenario = [Rank.mk "EV" (Fin 7)].
Proof.
  split; [|vm_compute; reflexivity].
  intros rawNews Hlen Hall.
  assert (B : Forall (fun e => scoreInRange (Rank.score e))
                (AdminSettings.industryImpactData rawNews)).
  { rewrite Forall_forall. intros e He. apply ranking_In in He.
    destruct He as [t [_ [Hm ->]]]. cbn [Rank.score].
    apply meanOf_bounds; [exact Hm | |].
    - pose proof (filter_length_le (fun item => String.eqb (tagOf item) t) rawNews) as L.
      fold (members t rawNews) in L. lia.
    - rewrite Forall_forall in *. intros item Hi. apply Hall.
      apply filter_In in Hi. apply Hi. }
  split; [exact B|].
  apply (sort_sorted Rank.score).
  eapply Permutation_Forall; [apply sort_perm|].
  eapply Forall_impl; [|exact B].
  intros e [q [E _]]. unfold defined. rewrite E. discriminate.
Qed.

Lemma ranking_scores_bounded_sorted_witness :
  Forall (fun e => scoreInRange (Rank.score e)) (AdminSettings.industryImpactData evScenario).
Proof.
  apply (proj1 ranking_scores_bounded_sorted evScenario).
  - reflexivity.
  - constructor; [|constructor; [|constructor]].
    + exists 8%Q. split; [reflexivity|]. split; discriminate.
    + exists 6%Q. split; [reflexivity|]. split; discriminate.
Defined.

(** ** Chronological grouping *)

Section Grouping.
Import NewsFeed.

Variable lab : NewsItem -> string.

Lemma filter_all {A : Type} (p : A -> bool) l :
  (forall x, In x l -> p x = true) -> filter p l = l.
Proof.
  induction l as [|x l IH]; intro H; [reflexivity|]. cbn [filter].
  rewrite (H x (or_introl eq_refl)), IH; [reflexivity|].
  intros y Hy. apply H. right. exact Hy.
Qed.

Lemma filter_none {A : Type} (p : A -> bool) l :
  (forall x, In x l -> p x = false) -> filter p l = [].
Proof.
  induction l as [|x l IH]; intro H; [reflexivity|]. cbn [filter].
  rewrite (H x (or_introl eq_refl)). apply IH.
  intros y Hy. apply H. right. exact Hy.
Qed.

(** The loop, started on a first group: that group collects the records of
    its label and the others are grouped among themselves. *)
Lemma push_fold l L its (acc : Groups) :
  fold_left (fun g item => push (lab item) item g) l ((L, its) :: acc)
  = (L, its ++ filter (fun item => String.eqb (lab item) L) l)
    :: fold_left (fun g item => push (lab item) item g)
         (filter (fun item => negb (String.eqb (lab item) L)) l) acc.
Proof.
  revert its acc. induction l as [|x l IH]; intros its acc.
  - cbn. rewrite app_nil_r. reflexivity.
  - cbn [fold_left push filter]. rewrite (String.eqb_sym L (lab x)).
    destruct (String.eqb (lab x) L); cbn [negb].
    + rewrite IH, <- app_assoc. reflexivity.
    + rewrite IH. reflexivity.
Qed.

Lemma groupsOf_cons x l :
  groupsOf lab (x :: l)
  = (lab x, x :: filter (fun item => String.eqb (lab item) (lab x)) l)
    :: groupsOf lab (filter (fun item => negb (String.eqb (lab item) (lab x))) l).
Proof. unfold groupsOf. cbn [fold_left push]. apply push_fold. Qed.

Lemma itemsOf_cons L its (g : Groups) : itemsOf ((L, its) :: g) = its ++ itemsOf g.
Proof. reflexivity. Qed.

Lemma items_In n : forall l, (List.length l <= n)%nat ->
  forall z, In z (itemsOf (groupsOf lab l)) -> In z l.
Proof.
  induction n as [|n IH]; intros l Hn z Hz.
  - destruct l; [exact Hz | cbn in Hn; lia].
  - destruct l as [|x l]; [exact Hz|].
    rewrite groupsOf_cons, itemsOf_cons in Hz. cbn [app In] in Hz.
    destruct Hz as [E|Hz]; [left; exact E|]. right.
    apply in_app_or in Hz. destruct Hz as [Hz|Hz].
    + apply filter_In in Hz. apply Hz.
    + apply IH in Hz.
      * apply filter_In in Hz. apply Hz.
      * pose proof (filter_length_le (fun item => negb (String.eqb (lab item) (lab x))) l).
        cbn [List.length] in Hn. lia.
Qed.

Variable k : NewsItem -> num.

(** Grouping a sorted sequence, sorting the records of the groups again
    and grouping them gives the same groups. *)
Lemma regroup_sorted n : forall out,
  (List.length out <= n)%nat ->
  Forall (fun x => defined (k x)) out ->
  StronglySorted (descending k) out ->
  groupsOf lab (sort (after_desc k) (itemsOf (groupsOf lab out))) = groupsOf lab out.
Proof.
  induction n as [|n IH]; intros out Hn Hok Hs.
  - destruct out; [reflexivity | cbn in Hn; lia].
  - destruct out as [|x l]; [reflexivity|].
    inversion Hok as [|? ? Hx Hl]; subst. inversion Hs as [|? ? Hsl Hxl]; subst.
    set (L := lab x).
    set (isL := fun item => String.eqb (lab item) L).
    set (notL := fun item => negb (String.eqb (lab item) L)).
    assert (Hlen : (List.length (filter notL l) <= n)%nat).
    { pose proof (filter_length_le notL l). cbn [List.length] in Hn. lia. }
    set (F := itemsOf (groupsOf lab (filter notL l))).
    assert (HF : forall z, In z F -> In z l /\ notL z = true).
    { intros z Hz. apply (items_In n _ Hlen) in Hz. apply filter_In in Hz. exact Hz. }
    assert (Hrest : forall z, In z (filter isL l ++ F) -> In z l).
    { intros z Hz. apply in_app_or in Hz. destruct Hz as [Hz|Hz].
      - apply filter_In in Hz. apply Hz.
      - apply HF, Hz. }
    assert (Hokrest : Forall (fun x => defined (k x)) (filter isL l ++ F)).
    { rewrite Forall_forall in *. intros z Hz. apply Hl, Hrest, Hz. }
    rewrite groupsOf_cons. fold L isL notL. rewrite itemsOf_cons. fold F.
    cbn [app sort].
    rewrite insert_first.
    + rewrite groupsOf_cons. fold L isL notL.
      rewrite !filter_sort by exact Hokrest.
      rewrite !filter_app.
      rewrite (filter_all isL (filter isL l)) by (intros z Hz; apply filter_In in Hz; apply Hz).
      rewrite (filter_none isL F).
      2:{ intros z Hz. apply HF in Hz. destruct Hz as [_ Hz]. unfold notL, isL in *.
          apply negb_true_iff. exact Hz. }
      rewrite (filter_none notL (filter isL l)).
      2:{ intros z Hz. apply filter_In in Hz. destruct Hz as [_ Hz]. unfold notL, isL in *.
          rewrite Hz. reflexivity. }
      rewrite (filter_all notL F) by (intros z Hz; apply HF, Hz).
      rewrite app_nil_r. cbn [app].
      rewrite (sort_of_sorted k (filter isL l)).
      * f_equal. apply IH; [exact Hlen | | apply sorted_filter; exact Hsl].
        rewrite Forall_forall in *. intros z Hz. apply filter_In in Hz. apply Hl, Hz.
      * rewrite Forall_forall in *. intros z Hz. apply filter_In in Hz. apply Hl, Hz.
      * apply sorted_filter. exact Hsl.
    + constructor; [exact Hx | apply sort_Forall; exact Hokrest].
    + rewrite Forall_forall in *. intros z Hz. apply sort_In in Hz. apply Hxl, Hrest, Hz.
Qed.

End Grouping.

Section Feed.
Import NewsFeed DateFns.

Lemma groupLabel_hasDate now item : hasDate item -> groupLabel now item = Some (labelOf now item).
Proof.
  intros [t H]. unfold labelOf, groupLabel. rewrite H. cbn [parseISO].
  destruct (isToday now (Some t)); [reflexivity|].
  destruct (isYesterday now (Some t)); [reflexivity|].
  destruct (isAfter (Some t) (Some (subDays now 7))); [reflexivity|].
  unfold format_MMMM_yyyy. destruct (civil_from_days (t / msPerDay)) as [[y m] d].
  reflexivity.
Qed.

Lemma groupStep_fold now l g :
  Forall hasDate l ->
  fold_left (groupStep now) l (Some g)
  = Some (fold_left (fun g item => push (labelOf now item) item g) l g).
Proof.
  revert g. induction l as [|x l IH]; intros g H; [reflexivity|].
  inversion H; subst. cbn [fold_left groupStep].
  rewrite groupLabel_hasDate by assumption. apply IH. assumption.
Qed.

Lemma groupedNews_total now l :
  Forall hasDate l -> groupedNews now l = Some (groupsOf (labelOf now) l).
Proof. intro H. unfold groupedNews, groupsOf. apply groupStep_fold, H. Qed.

(** What the filter lets through has a valid date and a numeric impact. *)
Lemma matches_keys c now item :
  matches c now item = true ->
  hasDate item /\ defined (latestKey item) /\ defined (impactKey item).
Proof.
  unfold matches. rewrite !andb_true_iff. intros [[Ht _] Hs].
  unfold isAfter in Ht. unfold hasDate, latestKey, impactKey, defined.
  destruct (created_at item) as [| |t]; cbn [parseISO] in *; try discriminate.
  split; [exists t; reflexivity|]. split; [discriminate|].
  destruct (ToNumber (impact_score item)); [discriminate Hs | discriminate].
Qed.

Lemma feed_unfold news c now :
  filteredAndSortedNews (Some news) c now
  = sort (after_desc (sortKey (sortBy c))) (filter (matches c now) news).
Proof. unfold filteredAndSortedNews. destruct (sortBy c); reflexivity. Qed.

End Feed.

(** C8: for every record set, every choice of the controls (sort mode
    included) and a fixed instant, the grouper does not fail, and running
    it again — filter, sort and grouping — on the sorted sequence it produced
    gives that sequence back and hence the same groups; running it on the
    records of its groups, read group after group, gives the same groups in
    the same order with the same records in the same order as well. *)
Theorem grouping_idempotent :
  forall (news : option (list NewsItem)) (c : NewsFeed.Controls) (now : Z),
    let sorted := NewsFeed.filteredAndSortedNews news c now in
    exists groups,
      NewsFeed.groupedNews now sorted = Some groups
      /\ NewsFeed.filteredAndSortedNews (Some sorted) c now = sorted
      /\ NewsFeed.groupedNews now (NewsFeed.filteredAndSortedNews (Some sorted) c now)
         = Some groups
      /\ NewsFeed.groupedNews now
           (NewsFeed.filteredAndSortedNews (Some (NewsFeed.itemsOf groups)) c now)
         = Some groups.
Proof.
  intros [news|] c now sorted.
  2:{ exists []. unfold sorted, NewsFeed.filteredAndSortedNews. cbn [filter NewsFeed.itemsOf map List.concat].
      destruct (NewsFeed.sortBy c); repeat split. }
  set (k := sortKey (NewsFeed.sortBy c)).
  assert (Hin : forall z, In z sorted -> NewsFeed.matches c now z = true).
  { intros z Hz. unfold sorted in Hz. rewrite feed_unfold in Hz.
    apply sort_In in Hz. apply filter_In in Hz. apply Hz. }
  assert (Hk : forall z, NewsFeed.matches c now z = true -> defined (k z)).
  { intros z Hz. apply matches_keys in Hz. unfold k.
    destruct (NewsFeed.sortBy c); apply Hz. }
  assert (Hok : Forall (fun x => defined (k x)) sorted).
  { rewrite Forall_forall. intros z Hz. apply Hk, Hin, Hz. }
  assert (Hdate : Forall hasDate sorted).
  { rewrite Forall_forall. intros z Hz. apply (matches_keys c now), Hin, Hz. }
  assert (Hs : StronglySorted (descending k) sorted).
  { unfold sorted. rewrite feed_unfold. apply sort_sorted.
    rewrite Forall_forall. intros z Hz. apply filter_In in Hz. apply Hk, Hz. }
  assert (Hagain : NewsFeed.filteredAndSortedNews (Some sorted) c now = sorted).
  { rewrite feed_unfold. rewrite (filter_all _ sorted Hin).
    apply sort_of_sorted; assumption. }
  exists (groupsOf (labelOf now) sorted).
  split; [apply groupedNews_total, Hdate|]. split; [exact Hagain|].
  split; [rewrite Hagain; apply groupedNews_total, Hdate|].
  assert (Hitems : forall z, In z (NewsFeed.itemsOf (groupsOf (labelOf now) sorted))
                             -> In z sorted).
  { apply (items_In (labelOf now) (List.length sorted)). apply Nat.le_refl. }
  rewrite feed_unfold. fold k.
  rewrite (filter_all _ _ (fun z Hz => Hin z (Hitems z Hz))).
  rewrite groupedNews_total.
  - f_equal. apply (regroup_sorted (labelOf now) k (List.length sorted));
      [apply Nat.le_refl | exact Hok | exact Hs].
  - rewrite Forall_forall in *. intros z Hz. apply sort_In in Hz. apply Hdate, Hitems, Hz.
Qed.

(** Sorted by impact, the group of the older record comes first; the record
    without an impact score does not pass the filter. *)
Example feed_by_impact :
  option_map (map (fun g => (fst g, map id (snd g))))
    (NewsFeed.groupedNews noon
       (NewsFeed.filteredAndSortedNews (Some feedSample) byImpactControls noon))
  = Some [ ("This Week", [2]); ("Today", [3; 1]) ].
Proof. vm_compute. reflexivity. Qed.

(** * Further properties of the code *)

(** ** The feed: filter and sort *)

Section FeedOrder.
Import NewsFeed DateFns.

Lemma filter_filter_implies {A : Type} (p q : A -> bool) l :
  (forall x, In x l -> p x = true -> q x = true) -> filter p (filter q l) = filter p l.
Proof.
  induction l as [|x l IH]; intro H; [reflexivity|]. cbn [filter].
  assert (IH' : filter p (filter q l) = filter p l).
  { apply IH. intros y Hy. apply H. right. exact Hy. }
  destruct (q x) eqn:Q; cbn [filter].
  - rewrite IH'. reflexivity.
  - destruct (p x) eqn:P; [|exact IH'].
    rewrite (H x (or_introl eq_refl) P) in Q. discriminate Q.
Qed.

Lemma matches_defined c now news :
  Forall (fun x => defined (sortKey (sortBy c) x)) (filter (matches c now) news).
Proof.
  rewrite Forall_forall. intros z Hz. apply filter_In in Hz. destruct Hz as [_ Hz].
  apply matches_keys in Hz. destruct (sortBy c); apply Hz.
Qed.

(** Stricter controls with the same sort mode show the old feed, filtered. *)
Lemma feed_refines news c c' now :
  sortBy c' = sortBy c ->
  (forall item, In item news -> matches c' now item = true -> matches c now item = true) ->
  filteredAndSortedNews (Some news) c' now
  = filter (matches c' now) (filteredAndSortedNews (Some news) c now).
Proof.
  intros Hs Himp. rewrite !feed_unfold, Hs.
  rewrite filter_sort by apply matches_defined.
  rewrite (filter_filter_implies _ _ _ Himp). reflexivity.
Qed.

Lemma equal_keys_sorted (k : NewsItem -> num) v l :
  Forall (fun x => keyIs k v x = true) l -> StronglySorted (descending k) l.
Proof.
  induction 1 as [|x l Hx Hl IH]; constructor; [exact IH|].
  rewrite Forall_forall in *. intros y Hy. specialize (Hl y Hy).
  unfold keyIs, descending in *.
  destruct (k x) as [|a]; [discriminate|]. destruct (k y) as [|b]; [discriminate|].
  apply Qeq_bool_eq in Hx, Hl. cbn [value]. rewrite Hx, Hl. apply Qle_refl.
Qed.

Lemma keyIs_defined (k : NewsItem -> num) v x : keyIs k v x = true -> defined (k x).
Proof. unfold keyIs, defined. destruct (k x); [discriminate | discriminate]. Qed.

End FeedOrder.

(** X1: the feed holds exactly the records that pass the three tests (time
    window, industry, minimum score), each as often as the input has it,
    every one with a defined sort key, in non-increasing order of that key:
    newest first in the Latest mode, highest impact first otherwise. *)
Theorem feed_is_sorted_selection :
  forall (news : list NewsItem) (c : NewsFeed.Controls) (now : Z),
    let feed := NewsFeed.filteredAndSortedNews (Some news) c now in
    Permutation feed (filter (NewsFeed.matches c now) news)
    /\ Forall (fun item => defined (sortKey (NewsFeed.sortBy c) item)) feed
    /\ StronglySorted (descending (sortKey (NewsFeed.sortBy c))) feed.
Proof.
  intros news c now feed. unfold feed. rewrite feed_unfold.
  split; [apply sort_perm|]. split.
  - apply sort_Forall, matches_defined.
  - apply sort_sorted, matches_defined.
Qed.

(** X2: the sort is stable in the feed: the records that share one sort key
    (one timestamp in the Latest mode, one impact score otherwise) appear in
    the order the server sent them. *)
Theorem feed_keeps_order_of_ties :
  forall (news : list NewsItem) (c : NewsFeed.Controls) (now : Z) (v : Q),
    filter (keyIs (sortKey (NewsFeed.sortBy c)) v)
           (NewsFeed.filteredAndSortedNews (Some news) c now)
    = filter (keyIs (sortKey (NewsFeed.sortBy c)) v) (filter (NewsFeed.matches c now) news).
Proof.
  intros news c now v. rewrite feed_unfold.
  rewrite filter_sort by apply matches_defined.
  apply sort_of_sorted.
  - rewrite Forall_forall. intros z Hz. apply filter_In in Hz.
    apply (keyIs_defined _ v). apply Hz.
  - apply (equal_keys_sorted _ v). rewrite Forall_forall. intros z Hz.
    apply filter_In in Hz. apply Hz.
Qed.



(** ** The feed: chronological groups *)

Section GroupShape.
Import NewsFeed.

Variable lab : NewsItem -> string.

Lemma keys_push L x (g : Groups) :
  map fst (push L x g)
  = if existsb (String.eqb L) (map fst g) then map fst g else map fst g ++ [L].
Proof.
  induction g as [|[k its] rest IH]; cbn [push map fst existsb app]; [reflexivity|].
  rewrite (String.eqb_sym L k).
  destruct (String.eqb k L); cbn [map fst orb]; [reflexivity|].
  rewrite IH. destruct (existsb (String.eqb L) (map fst rest)); reflexivity.
Qed.

Lemma keys_fold l (g : Groups) :
  map fst (fold_left (fun g item => push (lab item) item g) l g)
  = fold_left (fun acc l => if existsb (String.eqb l) acc then acc else acc ++ [l])
              (map lab l) (map fst g).
Proof.
  revert g. induction l as [|x l IH]; intro g; [reflexivity|].
  cbn [fold_left map]. rewrite IH, keys_push. reflexivity.
Qed.

Lemma groupsOf_keys l : map fst (groupsOf lab l) = firstSeen (map lab l).
Proof. apply (keys_fold l []). Qed.

Lemma firstSeen_NoDup_from labels acc :
  NoDup acc ->
  NoDup (fold_left (fun acc l => if existsb (String.eqb l) acc then acc else acc ++ [l])
                   labels acc).
Proof.
  revert acc. induction labels as [|L labels IH]; intros acc H; [exact H|].
  cbn [fold_left]. apply IH.
  destruct (existsb (String.eqb L) acc) eqn:E; [exact H|].
  apply NoDup_app; [exact H | constructor; [intros []|constructor] |].
  intros k Hin [Ek|[]]. subst k.
  assert (C : existsb (String.eqb L) acc = true).
  { apply existsb_exists. exists L. split; [exact Hin | apply String.eqb_refl]. }
  congruence.
Qed.

Lemma groupsOf_perm n : forall l,
  (List.length l <= n)%nat -> Permutation (itemsOf (groupsOf lab l)) l.
Proof.
  induction n as [|n IH]; intros l Hn.
  - destruct l; [constructor | cbn in Hn; lia].
  - destruct l as [|x l]; [constructor|].
    rewrite groupsOf_cons, itemsOf_cons. cbn [app]. constructor.
    eapply perm_trans; [|apply (partition_perm (fun item => String.eqb (lab item) (lab x)))].
    apply Permutation_app_head. apply IH.
    pose proof (filter_length_le (fun item => negb (String.eqb (lab item) (lab x))) l).
    cbn [List.length] in Hn. lia.
Qed.

(** Each group holds the records of its label, in their order. *)
Lemma groupsOf_group n : forall l,
  (List.length l <= n)%nat ->
  forall L its, In (L, its) (groupsOf lab l) ->
                its <> [] /\ its = filter (fun item => String.eqb (lab item) L) l.
Proof.
  induction n as [|n IH]; intros l Hn L its Hin.
  - destruct l; [destruct Hin | cbn in Hn; lia].
  - destruct l as [|x l]; [destruct Hin|].
    rewrite groupsOf_cons in Hin. destruct Hin as [E|Hin].
    + injection E as <- <-. cbn [filter]. rewrite String.eqb_refl. split; [discriminate | reflexivity].
    + apply IH in Hin.
      2:{ pose proof (filter_length_le (fun item => negb (String.eqb (lab item) (lab x))) l).
          cbn [List.length] in Hn. lia. }
      destruct Hin as [Hne Heq]. split; [exact Hne|].
      assert (HL : String.eqb (lab x) L = false).
      { destruct its as [|z its']; [contradiction|].
        assert (Hz : In z (z :: its')) by (left; reflexivity).
        rewrite Heq in Hz. apply filter_In in Hz. destruct Hz as [Hz Ez].
        apply filter_In in Hz. destruct Hz as [_ Nz].
        apply String.eqb_eq in Ez. rewrite Ez in Nz.
        rewrite String.eqb_sym. apply negb_true_iff. exact Nz. }
      cbn [filter]. rewrite HL. rewrite Heq.
      apply filter_filter_implies. intros z _ Ez.
      apply String.eqb_eq in Ez. rewrite Ez, String.eqb_sym, HL. reflexivity.
Qed.

Lemma groupsOf_constant L x l :
  (forall z, In z (x :: l) -> lab z = L) -> groupsOf lab (x :: l) = [(L, x :: l)].
Proof.
  intro H. rewrite groupsOf_cons.
  rewrite (H x (or_introl eq_refl)).
  rewrite filter_all, filter_none; [reflexivity | |].
  - intros z Hz. rewrite (H z (or_intror Hz)), String.eqb_refl. reflexivity.
  - intros z Hz. rewrite (H z (or_intror Hz)). apply String.eqb_refl.
Qed.

End GroupShape.

Section Labels.
Import NewsFeed DateFns.

Lemma groupLabel_invalid now item :
  parseISO (created_at item) = None -> groupLabel now item = None.
Proof. intro H. unfold groupLabel. rewrite H. reflexivity. Qed.

Lemma hasDate_parse item : hasDate item <-> parseISO (created_at item) <> None.
Proof.
  unfold hasDate. destruct (created_at item) as [| |t]; cbn [parseISO]; split.
  - intros [t H]. discriminate H.
  - intro H. contradiction.
  - intros [t H]. discriminate H.
  - intro H. contradiction.
  - intros _. discriminate.
  - intros _. exists t. reflexivity.
Qed.

Lemma groupStep_None now l : fold_left (groupStep now) l None = None.
Proof. induction l as [|x l IH]; [reflexivity | exact IH]. Qed.

Lemma startOfDay_same now t :
  startOfDay now < t -> t <= now -> startOfDay t = startOfDay now.
Proof.
  unfold startOfDay, msPerDay. intros H1 H2.
  Z.to_euclidean_division_equations. lia.
Qed.

Lemma startOfDay_later now t :
  startOfDay now + msPerDay <= t -> startOfDay now + msPerDay <= startOfDay t.
Proof.
  unfold startOfDay, msPerDay. intro H.
  Z.to_euclidean_division_equations. lia.
Qed.

Lemma startOfDay_le t : startOfDay t <= t < startOfDay t + msPerDay.
Proof.
  unfold startOfDay, msPerDay. Z.to_euclidean_division_equations. lia.
Qed.

Lemma startOfDay_yesterday now : startOfDay (subDays now 1) = startOfDay now - msPerDay.
Proof.
  unfold startOfDay, subDays, msPerDay. Z.to_euclidean_division_equations. lia.
Qed.

(** A record of the last seven days is filed under one of the three recent
    labels. *)
Lemma recent_label now item t :
  created_at item = ISO t -> subDays now 7 < t -> In (labelOf now item) recentLabels.
Proof.
  intros H Ht. unfold labelOf, groupLabel. rewrite H. cbn [parseISO].
  destruct (isToday now (Some t)); [left; reflexivity|].
  destruct (isYesterday now (Some t)); [right; left; reflexivity|].
  unfold isAfter. apply Z.ltb_lt in Ht. rewrite Ht. right. right. left. reflexivity.
Qed.

End Labels.

(** X4: on records with readable dates the grouping never fails and only
    rearranges: every record is in exactly one group, the labels are
    distinct and come in the order of their first record, no group is empty,
    and a group holds all the records of its label in the order of the
    input. *)
Theorem grouping_partitions_the_feed :
  forall (now : Z) (l : list NewsItem),
    Forall hasDate l ->
    exists groups,
      NewsFeed.groupedNews now l = Some groups
      /\ Permutation (NewsFeed.itemsOf groups) l
      /\ map fst groups = firstSeen (map (labelOf now) l)
      /\ NoDup (map fst groups)
      /\ forall L its, In (L, its) groups ->
           its <> [] /\ its = filter (fun item => String.eqb (labelOf now item) L) l.
Proof.
  intros now l H. exists (groupsOf (labelOf now) l).
  split; [apply groupedNews_total, H|].
  split; [apply (groupsOf_perm _ (List.length l)), Nat.le_refl|].
  split; [apply groupsOf_keys|]. split.
  - rewrite groupsOf_keys. apply firstSeen_NoDup_from. constructor.
  - apply (groupsOf_group _ (List.length l)), Nat.le_refl.
Qed.

Lemma grouping_partitions_the_feed_witness :
  exists groups,
    NewsFeed.groupedNews noon weekSample = Some groups
    /\ map fst groups = [ "Today"; "This Week"; "Yesterday"; "February 2024" ].
Proof.
  destruct (grouping_partitions_the_feed noon weekSample) as [groups [Hg [_ [Hk _]]]].
  - repeat constructor; eexists; reflexivity.
  - exists groups. split; [exact Hg|]. rewrite Hk. reflexivity.
Defined.

(** X5: the grouping throws (the RangeError of [format]) exactly when some
    record has a date that cannot be read; no group is then produced at
    all. *)
Theorem grouping_throws_on_unreadable_date :
  forall (now : Z) (l : list NewsItem),
    NewsFeed.groupedNews now l = None
    <-> Exists (fun item => DateFns.parseISO (created_at item) = None) l.
Proof.
  intros now l. unfold NewsFeed.groupedNews. generalize (@nil (string * list NewsItem)).
  induction l as [|x l IH]; intro g.
  - cbn [fold_left]. split; [discriminate | intro H; inversion H].
  - cbn [fold_left NewsFeed.groupStep].
    destruct (DateFns.parseISO (created_at x)) as [t|] eqn:P.
    + assert (Hx : hasDate x) by (apply hasDate_parse; rewrite P; discriminate).
      rewrite (groupLabel_hasDate now x Hx). rewrite IH. split.
      * intro H. right. exact H.
      * intro H. inversion H as [? ? Hx'|? ? Hl]; subst; [congruence | exact Hl].
    + rewrite (groupLabel_invalid now x P), groupStep_None.
      split; [intros _; left; exact P | reflexivity].
Qed.

(** X6: a record dated after the end of the current day is filed under
    "This Week": it is neither of today nor of yesterday, and it is after the
    instant seven days back. *)
Theorem future_record_is_this_week :
  forall (now t : Z) (item : NewsItem),
    created_at item = ISO t ->
    DateFns.startOfDay now + DateFns.msPerDay <= t ->
    NewsFeed.groupLabel now item = Some "This Week".
Proof.
  intros now t item H Ht. unfold NewsFeed.groupLabel. rewrite H. cbn [DateFns.parseISO].
  pose proof (startOfDay_later now t Ht) as L.
  pose proof (startOfDay_le now) as N.
  unfold DateFns.isToday, DateFns.isYesterday, DateFns.isSameDay.
  rewrite startOfDay_yesterday.
  destruct (Z.eqb_spec (DateFns.startOfDay t) (DateFns.startOfDay now)) as [E|_].
  { exfalso. unfold DateFns.msPerDay in *. lia. }
  destruct (Z.eqb_spec (DateFns.startOfDay t) (DateFns.startOfDay now - DateFns.msPerDay))
    as [E|_].
  { exfalso. unfold DateFns.msPerDay in *. lia. }
  unfold DateFns.isAfter, DateFns.subDays.
  destruct (Z.ltb_spec (now - 7 * DateFns.msPerDay) t) as [_|C]; [reflexivity|].
  exfalso. unfold DateFns.msPerDay in *. lia.
Qed.

Lemma future_record_is_this_week_witness :
  NewsFeed.groupLabel noon
    (record 9 JNull (JNumber 5) None None None (ISO (noon + 2 * DateFns.msPerDay)) NoDate)
  = Some "This Week".
Proof.
  apply (future_record_is_this_week noon (noon + 2 * DateFns.msPerDay)); [reflexivity|].
  vm_compute. discriminate.
Defined.



(** ** One card of the feed against the analytics views *)

(** X8: the sentiment badge of a card and the sentiment pie classify a
    record alike: Bullish exactly when the pie counts it as Positive, Bearish
    exactly when it counts it as Risk, Neutral exactly when it counts it as
    Neutral. *)
Theorem badge_agrees_with_sentiment_mix :
  forall (counts : AdminSettings.Counts) (item : NewsItem),
    let counts' := AdminSettings.tally counts item in
    (NewsFeed.sentimentBadge item = "Bullish"
     <-> AdminSettings.Positive counts' = S (AdminSettings.Positive counts))
    /\ (NewsFeed.sentimentBadge item = "Bearish"
        <-> AdminSettings.Risk counts' = S (AdminSettings.Risk counts))
    /\ (NewsFeed.sentimentBadge item = "Neutral"
        <-> AdminSettings.Neutral counts' = S (AdminSettings.Neutral counts)).
Proof.
  intros counts item counts'. unfold counts', NewsFeed.sentimentBadge, AdminSettings.tally.
  destruct (Num.gtb (ToNumber (sentiment_score item)) (of_Z 7));
    [|destruct (Num.ltb (ToNumber (sentiment_score item)) (of_Z 4))];
    cbn [AdminSettings.Positive AdminSettings.Neutral AdminSettings.Risk];
    repeat split; intro H; try reflexivity; try discriminate H; try lia.
Qed.

(** X9: the risk badge of a card and the risk distribution disagree on
    exactly the records whose risk_type is absent or empty: the feed shows a
    risk badge for them, the distribution counts them under None. *)
Theorem risk_badge_against_distribution :
  forall (item : NewsItem),
    (NewsFeed.showsRiskBadge item = false <-> risk_type item = Some "None")
    /\ (NewsFeed.showsRiskBadge item = true /\ category item = "None"
        <-> risk_type item = None \/ risk_type item = Some "").
Proof.
  intro item. unfold NewsFeed.showsRiskBadge, category, strict_eq, or_else.
  destruct (risk_type item) as [s|].
  - destruct (String.eqb_spec s "None") as [->|Hn].
    + cbn. split.
      * split; reflexivity.
      * split; [intros [H _]; discriminate H | intros [H|H]; discriminate H].
    + cbn [negb]. split.
      * split; [discriminate | intro H; congruence].
      * destruct (String.eqb_spec s "") as [->|He].
        -- cbn. split; [intros _; right; reflexivity | intros _; split; reflexivity].
        -- split.
           ++ intros [_ H]. exfalso.
              destruct (existsb (String.eqb s) AdminSettings.risks) eqn:E.
              ** apply Hn, H.
              ** discriminate H.
           ++ intros [H|H]; [discriminate H | congruence].
  - cbn. split.
    + split; discriminate.
    + split; [intros _; left; reflexivity | intros _; split; reflexivity].
Qed.

(** X10: every card of the feed has an impact score that is a number or
    [null], never absent; on [null] the card's [toFixed] throws, and [null]
    only gets through while the minimum score is zero or less: with a
    positive minimum every card renders its score. *)
Theorem cards_render_impact :
  forall (news : list NewsItem) (c : NewsFeed.Controls) (now : Z) (item : NewsItem),
    In item (NewsFeed.filteredAndSortedNews (Some news) c now) ->
    impact_score item <> JUndefined
    /\ (NewsFeed.impactText item = None <-> impact_score item = JNull)
    /\ ((0 < NewsFeed.minScore c)%Q -> NewsFeed.impactText item <> None).
Proof.
  intros news c now item Hin. rewrite feed_unfold in Hin.
  apply sort_In in Hin. apply filter_In in Hin. destruct Hin as [_ M].
  unfold NewsFeed.matches in M. rewrite !andb_true_iff in M. destruct M as [_ M].
  unfold NewsFeed.impactText. destruct (impact_score item) as [| |q]; cbn in M.
  - discriminate M.
  - split; [discriminate|]. split; [split; reflexivity|].
    intros Hpos _. apply Qle_bool_iff in M. apply (Qlt_not_le _ _ Hpos). exact M.
  - split; [discriminate|]. split; [split; discriminate|]. intros _. discriminate.
Qed.

Lemma cards_render_impact_witness :
  NewsFeed.impactText (record 4 (JNumber 5) JNull (Some "Low") None (Some "EV")
                         (ISO (noon - DateFns.msPerDay)) NoDate) = None.
Proof.
  apply (proj1 (proj2 (cards_render_impact weekSample latestControls noon _
                         ltac:(vm_compute; right; right; left; reflexivity)))).
  reflexivity.
Defined.

(** ** The analytics views and the order of the records *)

Section OrderIndependence.
Import AdminSettings.

Lemma filter_perm {A : Type} (p : A -> bool) l l' :
  Permutation l l' -> Permutation (filter p l) (filter p l').
Proof.
  induction 1 as [|x l l' H IH|x y l|l l' l'' H1 IH1 H2 IH2]; cbn [filter].
  - constructor.
  - destruct (p x); [constructor|]; exact IH.
  - destruct (p x), (p y); try apply Permutation_refl. apply perm_swap.
  - eapply perm_trans; eassumption.
Qed.

Lemma howMany_perm {A : Type} (p : A -> bool) l l' :
  Permutation l l' -> howMany p l = howMany p l'.
Proof. intro H. unfold howMany. apply Permutation_length, filter_perm, H. Qed.

Lemma sentiment_view_counts timeRange now rawNews :
  filteredSentimentData timeRange now rawNews
  = filter (fun c => (0 <? Mix.value c)%nat)
      [ Mix.mk "Positive" (howMany isPositive (filter (inWindow timeRange now) rawNews)) "#10b981";
        Mix.mk "Neutral" (howMany isNeutral (filter (inWindow timeRange now) rawNews)) "#f59e0b";
        Mix.mk "Risk" (howMany isRisk (filter (inWindow timeRange now) rawNews)) "#ef4444" ].
Proof. unfold filteredSentimentData. rewrite tally_fold. reflexivity. Qed.

Lemma risk_view_counts rawNews :
  riskDistributionData rawNews
  = Some (filter (fun c => (0 <? Risk.count c)%nat)
            (riskTable (fun r => howMany (fun item => String.eqb (category item) r) rawNews))).
Proof.
  unfold riskDistributionData.
  change (map (fun r => Risk.mk r 0) risks) with (riskTable (fun _ => 0%nat)).
  rewrite countRisk_fold. reflexivity.
Qed.

Lemma filter_nonzero_nil_mix (v : list Mix.t) :
  filter (fun c => (0 <? Mix.value c)%nat) v = [] <-> mixTotal v = 0%nat.
Proof.
  unfold mixTotal, list_sum. induction v as [|c v IH]; cbn [filter map fold_right].
  - split; reflexivity.
  - destruct (0 <? Mix.value c)%nat eqn:E.
    + apply Nat.ltb_lt in E. split; [discriminate | lia].
    + apply Nat.ltb_ge in E. rewrite IH. lia.
Qed.

Lemma filter_nonzero_nil_risk (v : list Risk.t) :
  filter (fun c => (0 <? Risk.count c)%nat) v = [] <-> riskTotal v = 0%nat.
Proof.
  unfold riskTotal, list_sum. induction v as [|c v IH]; cbn [filter map fold_right].
  - split; reflexivity.
  - destruct (0 <? Risk.count c)%nat eqn:E.
    + apply Nat.ltb_lt in E. split; [discriminate | lia].
    + apply Nat.ltb_ge in E. rewrite IH. lia.
Qed.

End OrderIndependence.

(** X11: the sentiment pie depends on which records are in the window, not
    on their order; its slices all have a positive count and it has no slice
    at all exactly when no record is in the window. *)
Theorem sentiment_mix_order_and_emptiness :
  forall (timeRange : AdminSettings.TimeRange) (now : Z) (rawNews : list NewsItem),
    (forall rawNews', Permutation rawNews rawNews' ->
        AdminSettings.filteredSentimentData timeRange now rawNews'
        = AdminSettings.filteredSentimentData timeRange now rawNews)
    /\ Forall (fun c => (0 < Mix.value c)%nat)
              (AdminSettings.filteredSentimentData timeRange now rawNews)
    /\ (AdminSettings.filteredSentimentData timeRange now rawNews = []
        <-> filter (AdminSettings.inWindow timeRange now) rawNews = []).
Proof.
  intros timeRange now rawNews. split; [|split].
  - intros rawNews' H. rewrite !sentiment_view_counts.
    pose proof (filter_perm (AdminSettings.inWindow timeRange now) _ _ H) as Hf.
    rewrite (howMany_perm isPositive _ _ Hf), (howMany_perm isNeutral _ _ Hf),
      (howMany_perm isRisk _ _ Hf). reflexivity.
  - rewrite Forall_forall. intros c Hc. rewrite sentiment_view_counts in Hc.
    apply filter_In in Hc. destruct Hc as [_ Hc]. apply Nat.ltb_lt. exact Hc.
  - rewrite sentiment_view_counts, filter_nonzero_nil_mix.
    unfold mixTotal, list_sum. cbn [map fold_right Mix.value].
    pose proof (buckets_partition (filter (AdminSettings.inWindow timeRange now) rawNews)) as P.
    split; intro H.
    + destruct (filter (AdminSettings.inWindow timeRange now) rawNews); [reflexivity|].
      cbn [List.length] in P. lia.
    + rewrite H. reflexivity.
Qed.

Lemma sentiment_mix_order_and_emptiness_witness :
  AdminSettings.filteredSentimentData AdminSettings.Daily noon (rev sentimentScenario)
  = AdminSettings.filteredSentimentData AdminSettings.Daily noon sentimentScenario.
Proof.
  apply (proj1 (sentiment_mix_order_and_emptiness AdminSettings.Daily noon sentimentScenario)).
  apply Permutation_rev.
Defined.

(** X12: the risk distribution depends on the records, not on their order;
    every bar has a positive count, and there is no bar at all exactly when
    there is no record. *)
Theorem risk_distribution_order_and_emptiness :
  forall (rawNews : list NewsItem),
    (forall rawNews', Permutation rawNews rawNews' ->
        AdminSettings.riskDistributionData rawNews'
        = AdminSettings.riskDistributionData rawNews)
    /\ (forall view, AdminSettings.riskDistributionData rawNews = Some view ->
                     Forall (fun c => (0 < Risk.count c)%nat) view)
    /\ (AdminSettings.riskDistributionData rawNews = Some [] <-> rawNews = []).
Proof.
  intro rawNews. split; [|split].
  - intros rawNews' H. rewrite !risk_view_counts. do 2 f_equal.
    apply riskTable_ext. intro r. symmetry. apply howMany_perm, H.
  - intros view H. rewrite risk_view_counts in H.
    set (table := riskTable _) in H.
    assert (E : view = filter (fun c => (0 <? Risk.count c)%nat) table) by congruence.
    rewrite E, Forall_forall. intros c Hc. apply filter_In in Hc. apply Nat.ltb_lt, Hc.
  - rewrite risk_view_counts. split.
    + intro H.
      assert (H' : filter (fun c => (0 <? Risk.count c)%nat)
                     (riskTable (fun r => howMany (fun item => String.eqb (category item) r)
                                             rawNews)) = []) by congruence.
      clear H. rename H' into H. apply filter_nonzero_nil_risk in H.
      rewrite riskTable_total in H. destruct rawNews; [reflexivity | discriminate H].
    + intros ->. reflexivity.
Qed.

Lemma risk_distribution_order_and_emptiness_witness :
  AdminSettings.riskDistributionData (rev riskScenario)
  = AdminSettings.riskDistributionData riskScenario.
Proof.
  apply (proj1 (risk_distribution_order_and_emptiness riskScenario)).
  apply Permutation_rev.
Defined.

(** X13: when every record carries the same tag, the ranking is the single
    entry of that tag with the mean over all the records — or nothing at
    all, when the tag names a property inherited from [Object.prototype]. *)
Theorem ranking_of_one_tag :
  forall (rawNews : list NewsItem) (t : string),
    rawNews <> [] ->
    (forall item, In item rawNews -> tagOf item = t) ->
    AdminSettings.industryImpactData rawNews
    = if Obj.is_inherited t then [] else [Rank.mk t (meanOf rawNews)].
Proof.
  intros rawNews t Hne Htag.
  assert (Hm : members t rawNews = rawNews).
  { apply filter_all. intros z Hz. rewrite (Htag z Hz). apply String.eqb_refl. }
  assert (Hall : forall e, In e (AdminSettings.industryImpactData rawNews) ->
                           Obj.is_inherited t = false /\ e = Rank.mk t (meanOf rawNews)).
  { intros e He. apply ranking_In in He. destruct He as [t' [Hi [Hmem ->]]].
    assert (t' = t).
    { destruct (members t' rawNews) as [|z m] eqn:M; [contradiction|].
      assert (Hz : In z (members t' rawNews)) by (rewrite M; left; reflexivity).
      apply filter_In in Hz. destruct Hz as [Hz Ez]. apply String.eqb_eq in Ez.
      rewrite <- Ez. apply Htag, Hz. }
    subst t'. rewrite Hm. split; [exact Hi | reflexivity]. }
  pose proof (ranking_names_NoDup rawNews) as Hnd.
  destruct (Obj.is_inherited t) eqn:It.
  - destruct (AdminSettings.industryImpactData rawNews) as [|e v]; [reflexivity|].
    destruct (Hall e (or_introl eq_refl)) as [C _]. discriminate C.
  - assert (Hin : In (Rank.mk t (meanOf rawNews)) (AdminSettings.industryImpactData rawNews)).
    { apply ranking_In. exists t. rewrite Hm. repeat split; assumption. }
    destruct (AdminSettings.industryImpactData rawNews) as [|e v]; [destruct Hin|].
    destruct (Hall e (or_introl eq_refl)) as [_ ->].
    destruct v as [|e' v]; [reflexivity|]. exfalso.
    destruct (Hall e' (or_intror (or_introl eq_refl))) as [_ ->].
    cbn [map Rank.name] in Hnd. inversion Hnd as [|? ? Hnot _]. apply Hnot. left. reflexivity.
Qed.

Lemma ranking_of_one_tag_witness :
  AdminSettings.industryImpactData evScenario = [Rank.mk "EV" (meanOf evScenario)].
Proof.
  apply (ranking_of_one_tag evScenario "EV"); [discriminate|].
  intros item [<-|[<-|[]]]; reflexivity.
Defined.

(** ** The keyword configuration as a state machine *)

Section ConfigMachine.
Import AdminSettings.

Lemma addKeyword_accepts st :
  newKeyword st <> "" -> ~ In (newKeyword st) (keywords st) ->
  addKeyword st
  = (mkState (keywords st ++ [newKeyword st]) (interval st) "" (selectedIndustry st),
     Some (mkConfig (keywords st ++ [newKeyword st]) (interval st))).
Proof.
  intros He Hn. unfold addKeyword.
  destruct (String.eqb_spec (newKeyword st) ""); [contradiction|].
  assert (I : includes (keywords st) (newKeyword st) = false).
  { apply not_true_iff_false. rewrite includes_In. exact Hn. }
  rewrite I. reflexivity.
Qed.

Lemma addKeyword_rejects st :
  newKeyword st = "" \/ In (newKeyword st) (keywords st) -> addKeyword st = (st, None).
Proof.
  intro H. unfold addKeyword. destruct H as [H|H].
  - rewrite H. reflexivity.
  - apply includes_In in H. rewrite H, andb_false_r. reflexivity.
Qed.

Lemma NoDup_snoc (l : list string) x : NoDup l -> ~ In x l -> NoDup (l ++ [x]).
Proof.
  intros H Hx. apply NoDup_app; [exact H | constructor; [intros []|constructor] |].
  intros k Hk [E|[]]. subst k. contradiction.
Qed.

Lemma handle_NoDup p e :
  NoDup (keywords (local p)) ->
  (forall c, e = Fetched c -> NoDup (search_keywords c)) ->
  NoDup (keywords (local (fst (handle p e)))).
Proof.
  intros H Hf. destruct e as [c|s| |kw|i|]; cbn [handle onLocal fst local]; try exact H.
  - unfold receive. destruct (unchanged (config p) c); [exact H|].
    cbn [local]. unfold syncConfig.
    destruct (List.length (keywords (local p)) =? 0)%nat; [|exact H].
    apply (Hf c eq_refl).
  - destruct (String.eqb_spec (newKeyword (local p)) "") as [E|E].
    + rewrite addKeyword_rejects by (left; exact E). exact H.
    + destruct (in_dec string_dec (newKeyword (local p)) (keywords (local p))) as [I|I].
      * rewrite addKeyword_rejects by (right; exact I). exact H.
      * rewrite (addKeyword_accepts (local p) E I). apply NoDup_snoc; assumption.
  - apply NoDup_filter, H.
Qed.

End ConfigMachine.

(** X14: the keyword list never holds a keyword twice: starting from a list
    without duplicates, no sequence of typing, adding, removing, moving the
    slider, saving and fetching produces one, as long as the fetched
    configurations have none. *)
Theorem keyword_list_stays_duplicate_free :
  forall (events : list AdminSettings.Event) (p : AdminSettings.Page),
    NoDup (AdminSettings.keywords (AdminSettings.local p)) ->
    (forall c, In (AdminSettings.Fetched c) events -> NoDup (AdminSettings.search_keywords c)) ->
    NoDup (AdminSettings.keywords (AdminSettings.local (AdminSettings.run events p))).
Proof.
  induction events as [|e events IH]; intros p H Hf; [exact H|].
  unfold AdminSettings.run. cbn [fold_left]. apply IH.
  - apply handle_NoDup; [exact H|]. intros c ->. apply Hf. left. reflexivity.
  - intros c Hc. apply Hf. right. exact Hc.
Qed.

Lemma keyword_list_stays_duplicate_free_witness :
  NoDup (AdminSettings.keywords
           (AdminSettings.local
              (AdminSettings.run
                 [ AdminSettings.Fetched (AdminSettings.mkConfig ["EV"; "Steel"] 30);
                   AdminSettings.Typed "EV"; AdminSettings.AddClicked;
                   AdminSettings.Typed "Solar"; AdminSettings.AddClicked;
                   AdminSettings.RemoveClicked "Steel" ]
                 (AdminSettings.mount None)))).
Proof.
  apply keyword_list_stays_duplicate_free.
  - constructor.
  - intros c [H|[H|[H|[H|[H|[H|[]]]]]]]; try discriminate H.
    injection H as <-. cbn.
    constructor; [intros [E|[]]; discriminate E|].
    constructor; [intros []|constructor].
Defined.

(** X15: an add changes nothing and posts nothing exactly when the typed
    keyword is empty or already in the list (compared as it is written);
    the typed text then stays in the box. *)
Theorem add_keyword_is_refused :
  forall (st : AdminSettings.State),
    AdminSettings.addKeyword st = (st, None)
    <-> AdminSettings.newKeyword st = ""
        \/ In (AdminSettings.newKeyword st) (AdminSettings.keywords st).
Proof.
  intro st. split; [|apply addKeyword_rejects].
  intro H.
  destruct (String.eqb_spec (AdminSettings.newKeyword st) "") as [E|E]; [left; exact E|].
  destruct (in_dec string_dec (AdminSettings.newKeyword st) (AdminSettings.keywords st))
    as [I|I]; [right; exact I|].
  rewrite (addKeyword_accepts st E I) in H. discriminate H.
Qed.

(** X16: what a handler posts is the local configuration as the handler
    leaves it, keywords and interval.  The local changes that are not posted
    are a hydration and a move of the interval slider; the interval reaches
    the server with the next keyword edit or save. *)
Theorem posted_config_is_local_config :
  forall (p : AdminSettings.Page) (e : AdminSettings.Event),
    match snd (AdminSettings.handle p e) with
    | Some posted =>
        posted = AdminSettings.localConfig (AdminSettings.local (fst (AdminSettings.handle p e)))
    | None =>
        AdminSettings.localConfig (AdminSettings.local (fst (AdminSettings.handle p e)))
        = AdminSettings.localConfig (AdminSettings.local p)
        \/ (exists c, e = AdminSettings.Fetched c)
        \/ (exists i, e = AdminSettings.IntervalMoved i)
    end.
Proof.
  intros p e.
  destruct e as [c|s| |kw|i|];
    cbn [AdminSettings.handle AdminSettings.onLocal AdminSettings.local fst snd].
  - right. left. exists c. reflexivity.
  - left. reflexivity.
  - destruct (String.eqb_spec (AdminSettings.newKeyword (AdminSettings.local p)) "") as [E|E].
    + rewrite addKeyword_rejects by (left; exact E). left. reflexivity.
    + destruct (in_dec string_dec (AdminSettings.newKeyword (AdminSettings.local p))
                  (AdminSettings.keywords (AdminSettings.local p))) as [I|I].
      * rewrite addKeyword_rejects by (right; exact I). left. reflexivity.
      * rewrite (addKeyword_accepts (AdminSettings.local p) E I). reflexivity.
  - reflexivity.
  - right. right. exists i. reflexivity.
  - reflexivity.
Qed.



(** ** The calendar behind the time windows *)

Section Calendar.
Import DateFns.

Lemma dfc_day y m d : days_from_civil y m d = days_from_civil y m 1 + d - 1.
Proof. unfold days_from_civil. lia. Qed.

Lemma civil_from_days_spec n :
  let '(y, m, d) := civil_from_days n in
  1 <= m <= 12 /\ 1 <= d <= daysInMonth y m /\ days_from_civil y m d = n.
Proof.
  unfold civil_from_days.
  set (z := n + 719468).
  set (era := z / 146097). set (doe := z mod 146097).
  set (yoe := (doe - doe / 1460 + doe / 36524 - doe / 146096) / 365).
  set (doy := doe - (365 * yoe + yoe / 4 - yoe / 100)).
  set (mp := (5 * doy + 2) / 153).
  assert (Hdoe : 0 <= doe < 146097) by (unfold doe; apply Z.mod_pos_bound; lia).
  assert (Hz : z = 146097 * era + doe) by (unfold era, doe; apply Z.div_mod; lia).
  assert (Hyoe : 0 <= yoe <= 399).
  { unfold yoe. Z.to_euclidean_division_equations. lia. }
  assert (Hdoy : 0 <= doy <= 365).
  { unfold doy, yoe. Z.to_euclidean_division_equations. lia. }
  assert (Hmp : 0 <= mp <= 11).
  { unfold mp. Z.to_euclidean_division_equations. lia. }
  set (d := doy - (153 * mp + 2) / 5 + 1).
  set (m := if mp <? 10 then mp + 3 else mp - 9).
  assert (Hm : 1 <= m <= 12) by (unfold m; destruct (Z.ltb_spec mp 10); lia).
  split; [exact Hm|].
  (* leap year of the civil year against the year of the era *)
  assert (Hrt : days_from_civil (if m <=? 2 then yoe + era * 400 + 1 else yoe + era * 400) m d = n).
  { unfold days_from_civil.
    assert (E1 : (if m <=? 2 then (if m <=? 2 then yoe + era * 400 + 1 else yoe + era * 400) - 1
                  else (if m <=? 2 then yoe + era * 400 + 1 else yoe + era * 400))
                 = yoe + era * 400) by (destruct (m <=? 2); lia).
    rewrite E1.
    assert (E2 : (yoe + era * 400) / 400 = era) by (Z.to_euclidean_division_equations; lia).
    assert (E3 : (yoe + era * 400) mod 400 = yoe) by (Z.to_euclidean_division_equations; lia).
    rewrite E2, E3.
    assert (E4 : (if 2 <? m then m - 3 else m + 9) = mp).
    { unfold m. destruct (Z.ltb_spec mp 10).
      - destruct (Z.ltb_spec 2 (mp + 3)); lia.
      - destruct (Z.ltb_spec 2 (mp - 9)); lia. }
    rewrite E4. unfold d, doy, z in *. lia. }
  split; [|exact Hrt].
  unfold daysInMonth, isLeapYear.
  assert (Hmp' : mp = 0 \/ mp = 1 \/ mp = 2 \/ mp = 3 \/ mp = 4 \/ mp = 5 \/ mp = 6
                 \/ mp = 7 \/ mp = 8 \/ mp = 9 \/ mp = 10 \/ mp = 11) by lia.
  assert (Hd1 : 1 <= d).
  { unfold d, mp. Z.to_euclidean_division_equations. lia. }
  split; [exact Hd1|].
  assert (Hdm : forall j, mp = j -> (153 * j + 2) / 5 <= doy <= (153 * (j + 1) + 2) / 5 - 1).
  { intros j <-. unfold mp. Z.to_euclidean_division_equations. lia. }
  destruct Hmp' as [E|[E|[E|[E|[E|[E|[E|[E|[E|[E|[E|E]]]]]]]]]]];
    pose proof (Hdm _ E) as B; unfold m, d; rewrite E in *; cbn in B |- *; try lia.
  destruct (Z.eqb_spec ((yoe + era * 400 + 1) mod 4) 0) as [L4|L4];
    destruct (Z.eqb_spec ((yoe + era * 400 + 1) mod 100) 0) as [L100|L100];
    destruct (Z.eqb_spec ((yoe + era * 400 + 1) mod 400) 0) as [L400|L400];
    cbn [andb orb negb]; try lia;
    unfold doy, yoe in *; Z.to_euclidean_division_equations; lia.
Qed.

Lemma monthLength_range k : 28 <= monthLength k <= 31.
Proof.
  unfold monthLength, daysInMonth.
  destruct (k mod 12 + 1 =? 2); [destruct (isLeapYear (k / 12)); lia|].
  destruct ((k mod 12 + 1 =? 4) || (k mod 12 + 1 =? 6) || (k mod 12 + 1 =? 9)
            || (k mod 12 + 1 =? 11)); lia.
Qed.

Lemma monthStart_step k : monthStart (k + 1) = monthStart k + monthLength k.
Proof.
  unfold monthStart, monthLength.
  assert (Hk : k = 12 * (k / 12) + k mod 12) by (apply Z.div_mod; lia).
  assert (Hr : 0 <= k mod 12 < 12) by (apply Z.mod_pos_bound; lia).
  set (q := k / 12) in *. set (r := k mod 12) in *.
  assert (Cases : r = 0 \/ r = 1 \/ r = 2 \/ r = 3 \/ r = 4 \/ r = 5 \/ r = 6
                  \/ r = 7 \/ r = 8 \/ r = 9 \/ r = 10 \/ r = 11) by lia.
  assert (Hnext : forall j, r = j -> j < 11 -> (k + 1) / 12 = q /\ (k + 1) mod 12 = j + 1).
  { intros j Ej Hj. Z.to_euclidean_division_equations. lia. }
  assert (Hlast : r = 11 -> (k + 1) / 12 = q + 1 /\ (k + 1) mod 12 = 0).
  { intro Ej. Z.to_euclidean_division_equations. lia. }
  destruct Cases as [E|[E|[E|[E|[E|[E|[E|[E|[E|[E|[E|E]]]]]]]]]]];
    try (destruct (Hnext _ E ltac:(lia)) as [-> ->]);
    try (destruct (Hlast E) as [-> ->]);
    rewrite E; unfold days_from_civil, daysInMonth, isLeapYear; cbn -[Z.div Z.modulo Z.mul];
    try (Z.to_euclidean_division_equations; lia).
  destruct (Z.eqb_spec (q mod 4) 0) as [L4|L4];
    destruct (Z.eqb_spec (q mod 100) 0) as [L100|L100];
    destruct (Z.eqb_spec (q mod 400) 0) as [L400|L400];
    cbn [andb orb negb]; Z.to_euclidean_division_equations; lia.
Qed.

Lemma monthStart_mono a b : a <= b -> monthStart a <= monthStart b.
Proof.
  intro H. replace b with (a + Z.of_nat (Z.to_nat (b - a))) by lia.
  induction (Z.to_nat (b - a)) as [|n IH]; [rewrite Z.add_0_r; lia|].
  rewrite Nat2Z.inj_succ, <- Z.add_1_r, Z.add_assoc, monthStart_step.
  pose proof (monthLength_range (a + Z.of_nat n)). lia.
Qed.

(** [addMonths] in terms of month indices. *)
Lemma addMonths_eq t j :
  1 <= dayOfMonth t <= monthLength (monthIndex t)
  /\ t / msPerDay = monthStart (monthIndex t) + dayOfMonth t - 1
  /\ addMonths t j
     = (monthStart (monthIndex t + j)
        + Z.min (dayOfMonth t) (monthLength (monthIndex t + j)) - 1) * msPerDay
       + t mod msPerDay.
Proof.
  unfold addMonths, monthIndex, dayOfMonth.
  pose proof (civil_from_days_spec (t / msPerDay)) as S.
  destruct (civil_from_days (t / msPerDay)) as [[y m] d].
  destruct S as [Hm [Hd Hrt]].
  assert (Ek : (y * 12 + (m - 1)) / 12 = y /\ (y * 12 + (m - 1)) mod 12 + 1 = m).
  { Z.to_euclidean_division_equations. lia. }
  destruct Ek as [Eq Er].
  unfold monthLength, monthStart. rewrite Eq, Er.
  split; [exact Hd|]. split.
  - rewrite <- Hrt at 1. apply dfc_day.
  - rewrite dfc_day. reflexivity.
Qed.

Lemma addMonths_mono t j j' : j <= j' -> addMonths t j <= addMonths t j'.
Proof.
  intro H. destruct (Z.eq_dec j j') as [->|Hne]; [lia|].
  destruct (addMonths_eq t j) as [Hd [_ ->]]. destruct (addMonths_eq t j') as [_ [_ ->]].
  pose proof (monthLength_range (monthIndex t + j)) as R.
  pose proof (monthLength_range (monthIndex t + j')) as R'.
  pose proof (monthStart_step (monthIndex t + j)) as St.
  pose proof (monthStart_mono (monthIndex t + j + 1) (monthIndex t + j') ltac:(lia)) as M.
  unfold msPerDay. lia.
Qed.

Lemma addMonths_0 t : addMonths t 0 = t.
Proof.
  destruct (addMonths_eq t 0) as [Hd [Hday ->]]. rewrite Z.add_0_r.
  rewrite Z.min_l by lia. rewrite <- Hday.
  unfold msPerDay. Z.to_euclidean_division_equations. lia.
Qed.

(** A month back is at least 28 days back. *)
Lemma subMonths_1_le t : subMonths t 1 <= t - 28 * msPerDay.
Proof.
  unfold subMonths. cbn [Z.opp]. destruct (addMonths_eq t (-1)) as [Hd [Hday ->]].
  pose proof (monthLength_range (monthIndex t + -1)) as R.
  pose proof (monthStart_step (monthIndex t + -1)) as St.
  replace (monthIndex t + -1 + 1) with (monthIndex t) in St by lia.
  assert (Hq : (monthStart (monthIndex t + -1)
                + Z.min (dayOfMonth t) (monthLength (monthIndex t + -1)) - 1)
               <= t / msPerDay - 28) by lia.
  unfold msPerDay in *. Z.to_euclidean_division_equations. lia.
Qed.


(** The same month a year earlier starts 365 or 366 days earlier, and when
    it is a day shorter (a February), exactly 365. *)
Lemma monthStart_year k :
  365 <= monthStart k - monthStart (k - 12) <= 366
  /\ monthLength k - 1 <= monthLength (k - 12)
  /\ (monthLength (k - 12) < monthLength k -> monthStart k - monthStart (k - 12) = 365).
Proof.
  unfold monthStart, monthLength.
  assert (Hk : k = 12 * (k / 12) + k mod 12) by (apply Z.div_mod; lia).
  assert (Hr : 0 <= k mod 12 < 12) by (apply Z.mod_pos_bound; lia).
  assert (Hp : (k - 12) / 12 = k / 12 - 1 /\ (k - 12) mod 12 = k mod 12).
  { Z.to_euclidean_division_equations. lia. }
  destruct Hp as [-> ->].
  set (q := k / 12) in *. set (r := k mod 12) in *.
  assert (Cases : r = 0 \/ r = 1 \/ r = 2 \/ r = 3 \/ r = 4 \/ r = 5 \/ r = 6
                  \/ r = 7 \/ r = 8 \/ r = 9 \/ r = 10 \/ r = 11) by lia.
  destruct Cases as [E|[E|[E|[E|[E|[E|[E|[E|[E|[E|[E|E]]]]]]]]]]];
    rewrite E; unfold days_from_civil, daysInMonth, isLeapYear; cbn -[Z.div Z.modulo Z.mul];
    try (Z.to_euclidean_division_equations; lia).
  destruct (Z.eqb_spec (q mod 4) 0) as [L4|L4];
    destruct (Z.eqb_spec (q mod 100) 0) as [L100|L100];
    destruct (Z.eqb_spec (q mod 400) 0) as [L400|L400];
    destruct (Z.eqb_spec ((q - 1) mod 4) 0) as [P4|P4];
    destruct (Z.eqb_spec ((q - 1) mod 100) 0) as [P100|P100];
    destruct (Z.eqb_spec ((q - 1) mod 400) 0) as [P400|P400];
    cbn [andb orb negb]; Z.to_euclidean_division_equations; lia.
Qed.

Lemma subMonths_1_ge t : t - 31 * msPerDay <= subMonths t 1.
Proof.
  unfold subMonths. cbn [Z.opp]. destruct (addMonths_eq t (-1)) as [Hd [Hday ->]].
  pose proof (monthLength_range (monthIndex t + -1)) as R.
  pose proof (monthLength_range (monthIndex t)) as R0.
  pose proof (monthStart_step (monthIndex t + -1)) as St.
  replace (monthIndex t + -1 + 1) with (monthIndex t) in St by lia.
  assert (Hq : t / msPerDay - 31
               <= monthStart (monthIndex t + -1)
                  + Z.min (dayOfMonth t) (monthLength (monthIndex t + -1)) - 1) by lia.
  unfold msPerDay in *. Z.to_euclidean_division_equations. lia.
Qed.

Lemma subYears_1_bounds t : t - 366 * msPerDay <= subYears t 1 <= t - 365 * msPerDay.
Proof.
  unfold subYears. cbn [Z.mul Z.opp Pos.mul].
  destruct (addMonths_eq t (-12)) as [Hd [Hday ->]].
  pose proof (monthStart_year (monthIndex t)) as [Y [L1 L2]].
  replace (monthIndex t - 12) with (monthIndex t + -12) in * by lia.
  pose proof (monthLength_range (monthIndex t + -12)) as R.
  assert (Hq : t / msPerDay - 366
               <= monthStart (monthIndex t + -12)
                  + Z.min (dayOfMonth t) (monthLength (monthIndex t + -12)) - 1
               <= t / msPerDay - 365) by lia.
  unfold msPerDay in *. Z.to_euclidean_division_equations. lia.
Qed.

End Calendar.

Section Windows.
Import DateFns.

Lemma feed_cutoffs now :
  NewsFeed.startDate NewsFeed.Yearly now <= NewsFeed.startDate NewsFeed.Quarterly now
  /\ NewsFeed.startDate NewsFeed.Quarterly now <= NewsFeed.startDate NewsFeed.Monthly now
  /\ NewsFeed.startDate NewsFeed.Monthly now <= NewsFeed.startDate NewsFeed.Weekly now
  /\ NewsFeed.startDate NewsFeed.Weekly now < NewsFeed.startDate NewsFeed.Daily now
  /\ NewsFeed.startDate NewsFeed.Daily now <= now.
Proof.
  cbn [NewsFeed.startDate]. unfold subYears, subMonths. cbn [Z.mul Z.opp Pos.mul].
  pose proof (addMonths_mono now (-12) (-3) ltac:(lia)).
  pose proof (addMonths_mono now (-3) (-1) ltac:(lia)).
  pose proof (subMonths_1_le now) as W. unfold subMonths in W. cbn [Z.opp] in W.
  pose proof (startOfDay_le now).
  unfold subDays, msPerDay in *. lia.
Qed.

Lemma feed_cutoff_order now r r' :
  (feedRangeRank r <= feedRangeRank r')%nat ->
  NewsFeed.startDate r' now <= NewsFeed.startDate r now.
Proof.
  intro H. pose proof (feed_cutoffs now) as [A [B [C [D E]]]].
  destruct r, r'; cbn [feedRangeRank] in H; try lia.
Qed.

Lemma admin_cutoffs now :
  AdminSettings.startDate AdminSettings.Yearly now
  <= AdminSettings.startDate AdminSettings.Monthly now
  /\ AdminSettings.startDate AdminSettings.Monthly now
     <= AdminSettings.startDate AdminSettings.Weekly now
  /\ AdminSettings.startDate AdminSettings.Weekly now
     < AdminSettings.startDate AdminSettings.Daily now
  /\ AdminSettings.startDate AdminSettings.Daily now < now.
Proof.
  cbn [AdminSettings.startDate]. unfold subYears, subMonths. cbn [Z.mul Z.opp Pos.mul].
  pose proof (addMonths_mono now (-12) (-1) ltac:(lia)).
  pose proof (subMonths_1_le now) as W. unfold subMonths in W. cbn [Z.opp] in W.
  unfold subDays, subHours, msPerDay, msPerHour in *. lia.
Qed.

Lemma admin_cutoff_order now r r' :
  (adminRangeRank r <= adminRangeRank r')%nat ->
  AdminSettings.startDate r' now <= AdminSettings.startDate r now.
Proof.
  intro H. pose proof (admin_cutoffs now) as [A [B [C D]]].
  destruct r, r'; cbn [adminRangeRank] in H; try lia.
Qed.

Lemma isAfter_mono d a b : b <= a -> isAfter d (Some a) = true -> isAfter d (Some b) = true.
Proof.
  intros H. unfold isAfter. destruct d as [t|]; [|discriminate].
  rewrite !Z.ltb_lt. lia.
Qed.

Lemma filter_length_implies {A : Type} (p q : A -> bool) l :
  (forall x, p x = true -> q x = true) ->
  (List.length (filter p l) <= List.length (filter q l))%nat.
Proof.
  intro H. induction l as [|x l IH]; [apply Nat.le_refl|]. cbn [filter].
  destruct (p x) eqn:P.
  - rewrite (H x P). cbn [List.length]. lia.
  - destruct (q x); cbn [List.length]; lia.
Qed.

End Windows.

(** X18: the time ranges of the feed nest: the cutoff moves back from Daily
    over Weekly, Monthly and Quarterly to Yearly, so the feed of a narrower
    range is the feed of the wider range without the records before the
    narrower cutoff, the others in the same order. *)
Theorem feed_ranges_nest :
  forall (news : list NewsItem) (c : NewsFeed.Controls) (now : Z)
         (r r' : NewsFeed.TimeRange),
    (feedRangeRank r <= feedRangeRank r')%nat ->
    NewsFeed.startDate r' now <= NewsFeed.startDate r now
    /\ NewsFeed.filteredAndSortedNews (Some news) (NewsFeed.setTimeRange r c) now
       = filter (fun item => DateFns.isAfter (DateFns.parseISO (created_at item))
                                             (Some (NewsFeed.startDate r now)))
                (NewsFeed.filteredAndSortedNews (Some news) (NewsFeed.setTimeRange r' c) now).
Proof.
  intros news c now r r' H. pose proof (feed_cutoff_order now r r' H) as Hc.
  split; [exact Hc|].
  rewrite (feed_refines news (NewsFeed.setTimeRange r' c) (NewsFeed.setTimeRange r c) now).
  - apply filter_ext_in. intros item Hin.
    rewrite feed_unfold in Hin. apply sort_In in Hin. apply filter_In in Hin.
    destruct Hin as [_ M]. unfold NewsFeed.matches in *.
    cbn [NewsFeed.setTimeRange NewsFeed.industryFilter NewsFeed.minScore NewsFeed.timeRange]
      in *.
    rewrite !andb_true_iff in M. destruct M as [[_ ->] ->]. rewrite !andb_true_r. reflexivity.
  - reflexivity.
  - intros item _. unfold NewsFeed.matches.
    cbn [NewsFeed.setTimeRange NewsFeed.industryFilter NewsFeed.minScore NewsFeed.timeRange].
    rewrite !andb_true_iff. intros [[Ht Hi] Hs]. repeat split; try assumption.
    apply (isAfter_mono _ _ _ Hc Ht).
Qed.

Lemma feed_ranges_nest_witness :
  NewsFeed.filteredAndSortedNews (Some weekSample)
    (NewsFeed.setTimeRange NewsFeed.Weekly latestControls) noon
  = filter (fun item => DateFns.isAfter (DateFns.parseISO (created_at item))
                                        (Some (NewsFeed.startDate NewsFeed.Weekly noon)))
           (NewsFeed.filteredAndSortedNews (Some weekSample)
              (NewsFeed.setTimeRange NewsFeed.Yearly latestControls) noon).
Proof.
  apply (proj2 (feed_ranges_nest weekSample latestControls noon
                  NewsFeed.Weekly NewsFeed.Yearly ltac:(cbn; lia))).
Defined.




(** ** What is shown of a point and of an empty feed *)

(** X21: every point of the correlation chart lies in the urgency domain 1
    to 3 of its axis, and its tooltip and colour follow the record: HIGH and
    red only for urgency High, MED and amber only for Medium, LOW and green
    for every other urgency, Low, unknown or absent. *)
Theorem scatter_points_display :
  forall (rawNews : list NewsItem) (n : nat) (item : NewsItem),
    nth_error rawNews n = Some item ->
    exists pt,
      nth_error (AdminSettings.scatterData rawNews) n = Some pt
      /\ 1 <= Point.urgency pt <= 3
      /\ (AdminSettings.urgencyText (Point.urgency pt) = "HIGH" <-> urgency item = Some "High")
      /\ (AdminSettings.urgencyText (Point.urgency pt) = "MED" <-> urgency item = Some "Medium")
      /\ (AdminSettings.pointFill (Point.urgency pt) = "#ef4444" <-> urgency item = Some "High")
      /\ (AdminSettings.pointFill (Point.urgency pt) = "#f59e0b"
          <-> urgency item = Some "Medium")
      /\ (urgency item <> Some "High" -> urgency item <> Some "Medium" ->
          AdminSettings.urgencyText (Point.urgency pt) = "LOW"
          /\ AdminSettings.pointFill (Point.urgency pt) = "#10b981").
Proof.
  intros rawNews n item H. eexists. split.
  - unfold AdminSettings.scatterData. apply map_nth_error. exact H.
  - cbn [Point.urgency]. unfold AdminSettings.urgencyWeight, strict_eq.
    destruct (urgency item) as [u|].
    + destruct (String.eqb_spec u "High") as [->|NH].
      * cbn. repeat split; intros; try reflexivity; try lia; try discriminate; congruence.
      * destruct (String.eqb_spec u "Medium") as [->|NM].
        -- cbn. repeat split; intros; try reflexivity; try lia; try discriminate; congruence.
        -- cbn. repeat split; intros; try reflexivity; try lia; try discriminate; congruence.
    + cbn. repeat split; intros; try reflexivity; try lia; discriminate.
Qed.

Lemma scatter_points_display_witness :
  exists pt,
    nth_error (AdminSettings.scatterData criticalNews) 0 = Some pt
    /\ AdminSettings.urgencyText (Point.urgency pt) = "LOW".
Proof.
  destruct (scatter_points_display criticalNews 0 _ eq_refl)
    as [pt [H [_ [_ [_ [_ [_ Hlow]]]]]]].
  exists pt. split; [exact H|]. apply Hlow; discriminate.
Defined.

(** X22: the "No signals" panel is shown exactly when no record passes the
    filter, and exactly when the grouping has no group to render. *)
Theorem empty_state_iff_no_groups :
  forall (news : list NewsItem) (c : NewsFeed.Controls) (now : Z),
    let feed := NewsFeed.filteredAndSortedNews (Some news) c now in
    (NewsFeed.showsEmptyState feed = true <-> filter (NewsFeed.matches c now) news = [])
    /\ (NewsFeed.showsEmptyState feed = true <-> NewsFeed.groupedNews now feed = Some []).
Proof.
  intros news c now feed.
  assert (Hdate : Forall hasDate feed).
  { unfold feed. rewrite feed_unfold. apply sort_Forall.
    rewrite Forall_forall. intros z Hz. apply filter_In in Hz.
    apply (matches_keys c now), Hz. }
  assert (E : NewsFeed.showsEmptyState feed = true <-> feed = []).
  { unfold NewsFeed.showsEmptyState. rewrite Nat.eqb_eq. apply length_zero_iff_nil. }
  split.
  - rewrite E. unfold feed. rewrite feed_unfold.
    rewrite <- !length_zero_iff_nil, sort_length. reflexivity.
  - rewrite E, (groupedNews_total now feed Hdate).
    destruct feed as [|x l]; [split; reflexivity|].
    rewrite groupsOf_cons. split; intro H; discriminate H.
Qed.

(** X23: inside every group the cards are in the order of the feed: newest
    first in the Latest mode, highest impact first otherwise. *)
Theorem group_cards_are_sorted :
  forall (news : list NewsItem) (c : NewsFeed.Controls) (now : Z)
         (groups : NewsFeed.Groups) (L : string) (its : list NewsItem),
    NewsFeed.groupedNews now (NewsFeed.filteredAndSortedNews (Some news) c now) = Some groups ->
    In (L, its) groups ->
    StronglySorted (descending (sortKey (NewsFeed.sortBy c))) its.
Proof.
  intros news c now groups L its Hg Hin.
  set (feed := NewsFeed.filteredAndSortedNews (Some news) c now) in *.
  assert (Hdate : Forall hasDate feed).
  { unfold feed. rewrite feed_unfold. apply sort_Forall.
    rewrite Forall_forall. intros z Hz. apply filter_In in Hz.
    apply (matches_keys c now), Hz. }
  rewrite (groupedNews_total now feed Hdate) in Hg.
  assert (E : groups = groupsOf (labelOf now) feed) by congruence. subst groups.
  apply (groupsOf_group _ (List.length feed) feed (Nat.le_refl _)) in Hin.
  destruct Hin as [_ ->]. apply sorted_filter.
  unfold feed. rewrite feed_unfold. apply sort_sorted, matches_defined.
Qed.

Lemma group_cards_are_sorted_witness :
  StronglySorted (descending (sortKey NewsFeed.Latest))
    (filter (fun item => String.eqb (labelOf noon item) "Today")
            (NewsFeed.filteredAndSortedNews (Some weekSample) latestControls noon)).
Proof.
  apply (group_cards_are_sorted weekSample latestControls noon
           (groupsOf (labelOf noon)
              (NewsFeed.filteredAndSortedNews (Some weekSample) latestControls noon))
           "Today").
  - vm_compute. reflexivity.
  - vm_compute. left. reflexivity.
Defined.
